(** * FileShareV1 backend (server/fileShare.php): model and verification

    The PHP endpoint is embedded as pure functions over an explicit model of
    the upload directory.  Every request is one run of the script, [serve]:
    the expiry sweep first ([cleanupExpired], line 131), then the POST or
    the GET handler.

    Conventions of the embedding:
    - PHP strings are byte strings: [string]; uploaded payloads are
      [list byte].
    - The upload directory is a finite map from paths to contents; its
      [meta] sub-directory is a finite map from the stem of each
      [<stem>.json] file to what [json_decode] makes of the file.  A
      record is typed: its [path] is a string, its dates are ATOM texts,
      empty, or texts that [DateTimeImmutable] rejects; values of other
      JSON types, and date texts relative to the clock, are not modelled.
    - In [cleanupExpired], [handle_get] and [serve] the [path] of a
      record is looked up among the payloads only.  The sweep is also
      given over the one directory tree ([tree_cleanupExpired]), where a
      [path] may be the path of a metadata file; both are the same run
      on directories where no record names a metadata file
      ([tree_sweep_agrees]), those written by uploads among them.
    - Paths are compared as texts: a file has one path (no links, no
      relative or unnormalised spellings of a path).
    - The upload and the metadata directory exist (the [mkdir] calls of
      lines 26-31 are not followed), and [file_put_contents] (line 172,
      whose result the script does not test) writes its file.
    - Clock readings, random bytes and the success of [move_uploaded_file]
      are inputs ([env]); instants are microseconds since the epoch, the
      resolution of [DateTimeImmutable], and a formatted date keeps the
      second.
    - A response is what the script hands to PHP (status code, the lines
      given to [header], the payload); [on_wire] gives the body sent, which
      is empty when [json_encode] refuses the payload (line 37).
    - A fatal error (uncaught exception or [TypeError]) is the outcome
      [Fatal] of the sweep and [Crashed] of a run. *)

From Stdlib Require Import ZArith Lia Ascii String List Permutation.
From Stdlib.Strings Require Import Byte.
From Stdlib Require Import DecimalString.
From stdpp Require Import gmap strings list sorting.

Open Scope string_scope.
Open Scope list_scope.
Open Scope Z_scope.

(** ** PHP primitives used by the script *)

Module Php.

(** Strings that PHP converts to [false]: the empty string and ["0"]. *)
Definition truthy (s : string) : bool :=
  negb (String.eqb s "" || String.eqb s "0").

(** [$s ?: $d] on strings. *)
Definition elvis (s d : string) : string := if truthy s then s else d.

(** [empty($a[k])] for a string-valued key that may be absent. *)
Definition empty_str (o : option string) : bool :=
  match o with
  | None => true
  | Some s => negb (truthy s)
  end.

Definition in_range (lo hi : N) (c : ascii) : bool :=
  let n := N_of_ascii c in (N.leb lo n && N.leb n hi)%bool.

Definition is_digit : ascii -> bool := in_range 48 57.
Definition is_upper : ascii -> bool := in_range 65 90.
Definition is_lower : ascii -> bool := in_range 97 122.

(** The class [[a-zA-Z0-9]]. *)
Definition is_alnum (c : ascii) : bool :=
  (is_lower c || is_upper c || is_digit c)%bool.

(** The class [[A-Za-z0-9_.-]]. *)
Definition is_safe (c : ascii) : bool :=
  (is_alnum c || Ascii.eqb c "_" || Ascii.eqb c "." || Ascii.eqb c "-")%bool.

(** The output alphabet of [bin2hex]. *)
Definition is_lower_hex (c : ascii) : bool :=
  (is_digit c || in_range 97 102 c)%bool.

Fixpoint str_map (f : ascii -> ascii) (s : string) : string :=
  match s with
  | EmptyString => EmptyString
  | String c r => String (f c) (str_map f r)
  end.

Fixpoint str_filter (p : ascii -> bool) (s : string) : string :=
  match s with
  | EmptyString => EmptyString
  | String c r => if p c then String c (str_filter p r) else str_filter p r
  end.

Fixpoint str_forall (p : ascii -> bool) (s : string) : bool :=
  match s with
  | EmptyString => true
  | String c r => (p c && str_forall p r)%bool
  end.

(** [preg_replace('/[^A-Za-z0-9_.-]/', '_', $s)]: the pattern has no
    [u] flag, so it works byte by byte. *)
Definition sanitize_name (s : string) : string :=
  str_map (fun c => if is_safe c then c else "_"%char) s.

(** [preg_replace('/[^a-zA-Z0-9]/', '', $s)]. *)
Definition sanitize_id (s : string) : string := str_filter is_alnum s.

(** [rtrim($s, '/')]. *)
Fixpoint rtrim_slash (s : string) : string :=
  match s with
  | EmptyString => EmptyString
  | String c r =>
      let r' := rtrim_slash r in
      if (Ascii.eqb c "/" && String.eqb r' "")%bool then EmptyString
      else String c r'
  end.

Definition hex_digit (n : N) : ascii :=
  match n with
  | 0 => "0" | 1 => "1" | 2 => "2" | 3 => "3" | 4 => "4" | 5 => "5"
  | 6 => "6" | 7 => "7" | 8 => "8" | 9 => "9" | 10 => "a" | 11 => "b"
  | 12 => "c" | 13 => "d" | 14 => "e" | _ => "f"
  end%N%char.

Definition hex_of_byte (b : byte) : string :=
  let n := Byte.to_N b in
  String (hex_digit (n / 16)) (String (hex_digit (n mod 16)) EmptyString).

(** [bin2hex]. *)
Fixpoint bin2hex (l : list byte) : string :=
  match l with
  | [] => EmptyString
  | b :: l' => hex_of_byte b +:+ bin2hex l'
  end.

Definition hex_value (c : ascii) : option N :=
  let n := N_of_ascii c in
  if is_digit c then Some (n - 48)%N
  else if in_range 97 102 c then Some (n - 87)%N
  else None.

(** The inverse of [bin2hex] on its image (PHP's [hex2bin]); the script
    does not call it, the proofs use it to show that [bin2hex] is
    injective. *)
Fixpoint hex2bin (s : string) : option (list byte) :=
  match s with
  | EmptyString => Some []
  | String _ EmptyString => None
  | String h (String l r) =>
      match hex_value h, hex_value l, hex2bin r with
      | Some a, Some b, Some t =>
          match Byte.of_N (a * 16 + b) with
          | Some x => Some (x :: t)
          | None => None
          end
      | _, _, _ => None
      end
  end.

Definition to_lower (c : ascii) : ascii :=
  if is_upper c then ascii_of_N (N_of_ascii c + 32) else c.

(** [strtolower] on the ASCII range. *)
Definition strtolower (s : string) : string := str_map to_lower s.

(** The text after the last occurrence of [sep], if [sep] occurs. *)
Fixpoint after_last (sep : ascii) (s : string) : option string :=
  match s with
  | EmptyString => None
  | String c r =>
      match after_last sep r with
      | Some t => Some t
      | None => if Ascii.eqb c sep then Some r else None
      end
  end.

(** [basename] of a path without trailing slashes. *)
Definition basename (p : string) : string :=
  let q := rtrim_slash p in
  match after_last "/" q with
  | Some b => b
  | None => q
  end.

(** [(string) pathinfo($p, PATHINFO_EXTENSION)]: the text after the last
    dot of the base name, the empty string when it has no dot. *)
Definition extension (p : string) : string :=
  match after_last "." (basename p) with
  | Some e => e
  | None => EmptyString
  end.

End Php.

(** ** Timestamps *)

(** Microseconds in a second, and in an hour. *)
Definition usec : Z := 1000000.
Definition hour_usec : Z := 3600 * usec.

(** [format(DateTimeInterface::ATOM)] keeps whole seconds only: the text
    written for the instant [t] denotes second [t / usec]. *)
Definition atom_second (t : Z) : Z := t / usec.

(** A date text as it can stand in a metadata record. *)
Inductive datestr : Type :=
| DAtom (sec : Z)  (** the ATOM text of second [sec] *)
| DBlank           (** the empty text: [empty()] holds, and the
                       [DateTimeImmutable] constructor reads the clock *)
| DJunk.           (** a non-empty text the constructor rejects with an
                       exception *)

(** [empty($a['expiresAt'])]. *)
Definition empty_date (o : option datestr) : bool :=
  match o with
  | None | Some DBlank => true
  | Some _ => false
  end.

(** [new DateTimeImmutable($text)] at clock reading [clock]: the instant in
    microseconds, [None] when the constructor throws. *)
Definition parse_date (clock : Z) (d : datestr) : option Z :=
  match d with
  | DAtom sec => Some (sec * usec)
  | DBlank => Some clock
  | DJunk => None
  end.

(** ** Zip archives and the preview *)

(** One slot of the central directory as [ZipArchive] shows it:
    [getNameIndex] gives the name or [false], [statIndex] a size or none. *)
Record zip_entry : Type := ZipEntry {
  ze_name : option string;
  ze_size : option Z
}.

Definition archive : Type := list zip_entry.

Record preview_entry : Type := PreviewEntry {
  pe_name : string;
  pe_size : Z
}.

Record zip_preview : Type := ZipPreview {
  zipContents : list preview_entry;
  zipTruncated : bool
}.

(** [substr($name, -1) === '/']. *)
Fixpoint ends_with_slash (s : string) : bool :=
  match s with
  | EmptyString => false
  | String c EmptyString => Ascii.eqb c "/"
  | String _ r => ends_with_slash r
  end.

(** The test of lines 72 and 85: the slot is listed iff its name can be
    read and does not end with a slash. *)
Definition content_name (e : zip_entry) : option string :=
  match ze_name e with
  | Some n => if ends_with_slash n then None else Some n
  | None => None
  end.

Definition is_content (e : zip_entry) : bool :=
  match content_name e with Some _ => true | None => false end.

Definition entry_of (n : string) (e : zip_entry) : preview_entry :=
  PreviewEntry n (match ze_size e with Some z => z | None => 0 end).

(** The inner loop over [$j] (lines 83-89): is there a content entry among
    the remaining slots? *)
Fixpoint any_content (rest : archive) : bool :=
  match rest with
  | [] => false
  | e :: rest' => if is_content e then true else any_content rest'
  end.

(** The outer loop over [$i] (lines 70-92); [rest] holds the slots from
    index [$i] on, [entries] the array built so far. *)
Fixpoint scan_entries (limit : Z) (rest : archive) (entries : list preview_entry)
  : zip_preview :=
  match rest with
  | [] => ZipPreview entries false
  | e :: rest' =>
      match content_name e with
      | None => scan_entries limit rest' entries
      | Some n =>
          let entries' := entries ++ [entry_of n e] in
          if Z.of_nat (length entries') >=? limit
          then ZipPreview entries' (any_content rest')
          else scan_entries limit rest' entries'
      end
  end.

Definition empty_preview : zip_preview := ZipPreview [] false.

(** What the PHP installation adds to the script: whether [json_encode]
    accepts a file name (it refuses invalid UTF-8), and what
    [ZipArchive::open] finds in a file ([None]: the zip extension is
    missing or the bytes cannot be opened as an archive). *)
Class Runtime : Type := {
  json_encodable : string -> bool;
  zip_open : list byte -> option archive
}.

(** [buildZipPreview($filePath, $limit)]; [file] is the content found at
    [$filePath], if any. *)
Definition buildZipPreview `{Runtime} (file : option (list byte)) (limit : Z)
  : zip_preview :=
  match file with
  | None => empty_preview
  | Some bytes =>
      match zip_open bytes with
      | None => empty_preview
      | Some a => scan_entries limit a []
      end
  end.

(** [isZipFile]. *)
Definition isZipFile (path : string) : bool :=
  if Php.truthy path
  then String.eqb (Php.strtolower (Php.extension path)) "zip"
  else false.

(** ** The upload directory *)

(** A metadata record: the array [json_decode] returns.  A key that is
    absent (or [null]) is [None]. *)
Record meta : Type := Meta {
  m_id : option string;
  m_filename : option string;
  m_storedName : option string;
  m_path : option string;
  m_size : option Z;
  m_expiresAt : option datestr;
  m_uploadedAt : option datestr
}.

(** The calls that change the files of the directory, in the order the
    script makes them. *)
Inductive syscall : Type :=
| MoveUpload (path : string)
| PutMeta (stem : string)
| UnlinkObj (path : string)
| UnlinkMeta (stem : string).

(** [objs]: the stored payloads by path.  [metas]: the files
    [meta/<stem>.json] by stem; the content [None] stands for text that
    [json_decode] turns into [null] or another value that is not a
    non-empty array.  [journal]: the calls made so far. *)
Record store : Type := Store {
  objs : gmap string (list byte);
  metas : gmap string (option meta);
  journal : list syscall
}.

Definition empty_store : store := Store ∅ ∅ [].

Definition file_exists (p : string) (st : store) : bool :=
  match objs st !! p with Some _ => true | None => false end.

Definition unlink_obj (p : string) (st : store) : store :=
  Store (delete p (objs st)) (metas st) (journal st ++ [UnlinkObj p]).

Definition unlink_meta (k : string) (st : store) : store :=
  Store (objs st) (delete k (metas st)) (journal st ++ [UnlinkMeta k]).

Definition move_upload (p : string) (b : list byte) (st : store) : store :=
  Store (<[p := b]> (objs st)) (metas st) (journal st ++ [MoveUpload p]).

Definition put_meta (k : string) (c : option meta) (st : store) : store :=
  Store (objs st) (<[k := c]> (metas st)) (journal st ++ [PutMeta k]).

(** The wildcard of [glob] does not match a leading dot. *)
Definition hidden (k : string) : bool :=
  match k with
  | String c _ => Ascii.eqb c "."
  | EmptyString => false
  end.

Definition str_le (a b : string) : Prop := String.leb a b = true.

#[global] Instance str_le_dec a b : Decision (str_le a b).
Proof. unfold str_le. apply _. Defined.

(** [glob($metaDir . '/*.json')]: the stems, sorted. *)
Definition glob_json (st : store) : list string :=
  merge_sort str_le
    (filter (fun k => hidden k = false) (map_to_list (metas st)).*1).

(** How a run of the script, or of a part of it, ends: normally, or in a
    fatal error; either way the directory is left in some state. *)
Inductive run : Type :=
| Done (st : store)
| Fatal (st : store).

Definition final (r : run) : store :=
  match r with Done st | Fatal st => st end.

(** ** The expiry sweep: [cleanupExpired] *)

(** Lines 123-125: the payload is unlinked when the record has a
    non-empty [path] and a file is there. *)
Definition unlink_if_present (path : option string) (st : store) : store :=
  match path with
  | Some p =>
      if (Php.truthy p && file_exists p st)%bool then unlink_obj p st else st
  | None => st
  end.

(** The body of the [foreach] (lines 116-127) for the file of stem [k]. *)
Definition sweep_file (now : Z) (k : string) (st : store) : run :=
  match metas st !! k with
  | Some (Some data) =>
      if empty_date (m_expiresAt data) then Done st
      else
        match m_expiresAt data ≫= parse_date now with
        | None => Fatal st
        | Some expires =>
            if expires <? now
            then Done (unlink_meta k (unlink_if_present (m_path data) st))
            else Done st
        end
  | _ => Done st
  end.

Fixpoint sweep_loop (now : Z) (ks : list string) (st : store) : run :=
  match ks with
  | [] => Done st
  | k :: ks' =>
      match sweep_file now k st with
      | Done st' => sweep_loop now ks' st'
      | Fatal st' => Fatal st'
      end
  end.

Definition cleanupExpired (now : Z) (st : store) : run :=
  match glob_json st with
  | [] => Done st
  | metaFiles => sweep_loop now metaFiles st
  end.

(** ** Requests, responses and the environment of one run *)

(** The settings at the head of the script (lines 21-24); the metadata
    directory is [uploadDir/meta], the map [metas]. *)
Record config : Type := Config {
  uploadDir : string;
  expirationHours : Z;
  maxSize : Z
}.

(** The values the script sets, for a script placed in directory [dir]. *)
Definition script_config (dir : string) : config :=
  Config (dir +:+ "/uploads") 48 (1024 * 1024 * 1024).

(** The default of [$limit] in [buildZipPreview]. *)
Definition preview_limit : Z := 200.

(** [UPLOAD_ERR_OK]. *)
Definition UPLOAD_ERR_OK : Z := 0.

(** The entry [$_FILES['file']]: the submitted name, PHP's error code and
    the received bytes (the temporary file); [size] is their number. *)
Record upfile : Type := Upfile {
  up_name : string;
  up_error : Z;
  up_bytes : list byte
}.

Definition up_size (u : upfile) : Z := Z.of_nat (length (up_bytes u)).

Inductive verb : Type := OPTIONS | GET | POST | OtherVerb.

Record request : Type := Request {
  method : verb;
  post_action : option string;  (** [$_POST['action']] *)
  post_file : option upfile;    (** [$_FILES['file']] *)
  get_id : option string;       (** [$_GET['id']] *)
  get_info : bool               (** [isset($_GET['info'])] *)
}.

(** The result of [random_bytes(6)]. *)
Record six_bytes : Type := Six {
  rb0 : byte; rb1 : byte; rb2 : byte; rb3 : byte; rb4 : byte; rb5 : byte
}.

Definition six_list (r : six_bytes) : list byte :=
  [rb0 r; rb1 r; rb2 r; rb3 r; rb4 r; rb5 r].

(** What one run takes from outside: the clock at each place the script
    reads it, the six random bytes, whether [move_uploaded_file] succeeds,
    and the URL of the script. *)
Record env : Type := Env {
  now_sweep : Z;    (** line 114 *)
  now_expiry : Z;   (** line 161 *)
  now_upload : Z;   (** line 169 *)
  now_blank : Z;    (** line 219, read only for an empty date text *)
  now_check : Z;    (** line 220 *)
  random6 : six_bytes;
  move_ok : bool;
  base_url : string
}.

Record file_info : Type := FileInfo {
  i_id : string;
  i_filename : string;
  i_size : Z;
  i_expiresAt : datestr;
  i_uploadedAt : datestr;
  i_isZip : bool;
  i_zip : option zip_preview
}.

(** A response is what the script hands to PHP: the status code, the lines
    given to [header], and the payload given to [jsonResponse], [echo] or
    [readfile]. *)
Inductive body : Type :=
| NoBody
| Text (s : string)
| JsonFailure (error : string)
| JsonUploaded (id filename downloadUrl : string) (expiresAt : datestr) (size : Z)
| JsonInfo (i : file_info)
| FileContent (b : list byte).

Record response : Type := Response {
  status : Z;
  headers : list string;
  content : body
}.

Inductive result : Type :=
| Sent (r : response)
| Crashed.

(** Lines 11-14. *)
Definition cors_headers : list string :=
  [ "Access-Control-Allow-Origin: *";
    "Access-Control-Allow-Methods: GET, POST, OPTIONS";
    "Access-Control-Allow-Headers: Content-Type, X-Requested-With";
    "Access-Control-Expose-Headers: X-Fileshare-Filename" ].

(** [jsonResponse]. *)
Definition jsonResponse (payload : body) (code : Z) : result :=
  Sent (Response code (cors_headers ++ ["Content-Type: application/json"]) payload).

(** [http_response_code($code); echo $text; exit]. *)
Definition textResponse (text : string) (code : Z) : result :=
  Sent (Response code cors_headers (Text text)).

(** The failure exits of the GET handler: JSON for an info request, plain
    text for a download. *)
Definition get_failure (isInfo : bool) (code : Z) (json text : string) : result :=
  if isInfo then jsonResponse (JsonFailure json) code
  else textResponse text code.

(** The 404 exit, written out twice in the GET handler (lines 199-206 and
    210-216). *)
Definition not_found (isInfo : bool) : result :=
  get_failure isInfo 404 "File not found" "File not found".

(** An integer in a string context. *)
Definition int_string (z : Z) : string :=
  DecimalString.NilZero.string_of_int (Z.to_int z).

Definition dquote : string := String (ascii_of_nat 34) EmptyString.

(** ** The POST handler (lines 133-184) *)

Section Handlers.
Context `{Runtime}.
Variable cfg : config.

Definition originalName (u : upfile) : string :=
  Php.elvis (up_name u) "fileshare.bin".

Definition new_id (e : env) : string := Php.bin2hex (six_list (random6 e)).

Definition storedName (e : env) (u : upfile) : string :=
  new_id e +:+ "__" +:+ Php.elvis (Php.sanitize_name (originalName u)) "fileshare.bin".

Definition targetPath (e : env) (u : upfile) : string :=
  Php.rtrim_slash (uploadDir cfg) +:+ "/" +:+ storedName e u.

Definition expiresAt_of (e : env) : Z :=
  atom_second (now_expiry e + expirationHours cfg * hour_usec).

(** The array [$meta] of lines 162-170. *)
Definition upload_meta (e : env) (u : upfile) : meta :=
  Meta (Some (new_id e)) (Some (originalName u)) (Some (storedName e u))
       (Some (targetPath e u)) (Some (up_size u))
       (Some (DAtom (expiresAt_of e)))
       (Some (DAtom (atom_second (now_upload e)))).

(** What [json_decode] later reads from the text that
    [json_encode($meta, ...)] wrote: the record itself, or nothing when
    [json_encode] failed on one of the strings and the file was written
    empty. *)
Definition written_meta (m : meta) : option meta :=
  if forallb json_encodable
       (omap id [m_id m; m_filename m; m_storedName m; m_path m])
  then Some m else None.

Definition handle_post (e : env) (r : request) (st : store) : result * store :=
  if negb (String.eqb (default "" (post_action r)) "upload") then
    (jsonResponse (JsonFailure "Invalid action") 400, st)
  else
    match post_file r with
    | None => (jsonResponse (JsonFailure "Missing file payload") 400, st)
    | Some u =>
        if negb (up_error u =? UPLOAD_ERR_OK) then
          (jsonResponse
             (JsonFailure ("Upload failed (error code " +:+ int_string (up_error u) +:+ ")"))
             400, st)
        else if up_size u >? maxSize cfg then
          (jsonResponse (JsonFailure "File exceeds maximum allowed size") 413, st)
        else if negb (move_ok e) then
          (jsonResponse (JsonFailure "Unable to save uploaded file") 500, st)
        else
          let st1 := move_upload (targetPath e u) (up_bytes u) st in
          let m := upload_meta e u in
          let st2 := put_meta (new_id e) (written_meta m) st1 in
          (jsonResponse
             (JsonUploaded (new_id e) (originalName u)
                (base_url e +:+ "?id=" +:+ new_id e)
                (DAtom (expiresAt_of e)) (up_size u))
             200, st2)
    end.

(** ** The GET handler (lines 186-258) *)

(** Line 209: the record can be used when it decodes to an array whose
    [path] is not empty and names an existing file. *)
Definition usable (c : option meta) (st : store) : option (meta * string) :=
  match c with
  | Some m =>
      match m_path m with
      | Some p => if (Php.truthy p && file_exists p st)%bool then Some (m, p) else None
      | None => None
      end
  | None => None
  end.

(** Lines 231-249. *)
Definition info_of (id : string) (m : meta) (p : string) (d : datestr) (st : store)
  : file_info :=
  let isZip := (isZipFile p || isZipFile (default "" (m_storedName m)))%bool in
  FileInfo
    (default id (m_id m))
    (default "file" (m_filename m))
    (match m_size m with
     | Some z => z
     | None => match objs st !! p with
               | Some b => Z.of_nat (length b)
               | None => 0
               end
     end)
    d
    (default DBlank (m_uploadedAt m))
    isZip
    (if isZip then Some (buildZipPreview (objs st !! p) preview_limit) else None).

(** Lines 252-257. *)
Definition download_of (m : meta) (p : string) (st : store) : result :=
  let filename := default "" (m_filename m) in
  Sent (Response 200
          (cors_headers ++
           [ "Content-Type: application/octet-stream";
             "Content-Length: " +:+ from_option int_string "" (m_size m);
             "Content-Disposition: attachment; filename=" +:+ dquote +:+ filename +:+ dquote;
             "X-Fileshare-Filename: " +:+ filename ])
          (match objs st !! p with
           | Some b => FileContent b
           | None => NoBody
           end)).

Definition handle_get (e : env) (raw : string) (isInfo : bool) (st : store)
  : result * store :=
  let id := Php.sanitize_id raw in
  if negb (Php.truthy id) then
    (get_failure isInfo 400 "Invalid file id" "Invalid download id", st)
  else
    match metas st !! id with
    | None => (not_found isInfo, st)
    | Some c =>
        match usable c st with
        | None => (not_found isInfo, unlink_meta id st)
        | Some (m, p) =>
            match m_expiresAt m with
            | None => (Crashed, st)
            | Some d =>
                match parse_date (now_blank e) d with
                | None => (Crashed, st)
                | Some expires =>
                    if expires <? now_check e then
                      (get_failure isInfo 410 "Link expired" "Link expired",
                       unlink_meta id (unlink_obj p st))
                    else if isInfo then
                      (jsonResponse (JsonInfo (info_of id m p d st)) 200, st)
                    else (download_of m p st, st)
                end
            end
        end
    end.

(** ** One run of the script *)

Definition serve (e : env) (r : request) (st : store) : result * store :=
  match method r with
  | OPTIONS => (Sent (Response 204 cors_headers NoBody), st)
  | v =>
      match cleanupExpired (now_sweep e) st with
      | Fatal st1 => (Crashed, st1)
      | Done st1 =>
          match v, get_id r with
          | POST, _ => handle_post e r st1
          | GET, Some raw => handle_get e raw (get_info r) st1
          | _, _ => (jsonResponse (JsonFailure "Unsupported request") 405, st1)
          end
      end
  end.

End Handlers.


(** ** Notions used to state the properties *)

(** The content entries of an archive, in directory order: what the
    preview lists when nothing is cut off. *)
Definition content_entries (a : archive) : list preview_entry :=
  omap (fun e => (fun n => entry_of n e) <$> content_name e) a.

Fixpoint str_contains (c : ascii) (s : string) : bool :=
  match s with
  | EmptyString => false
  | String d r => (Ascii.eqb d c || str_contains c r)%bool
  end.

(** A record the sweep removes at clock reading [now]: it decodes, and its
    [expiresAt] is the ATOM text of a second before [now]. *)
Definition expirable (now : Z) (c : option (option meta)) : bool :=
  match c with
  | Some (Some m) =>
      match m_expiresAt m with
      | Some (DAtom s) => s * usec <? now
      | _ => false
      end
  | _ => false
  end.

(** The record of stem [k] is removed by the sweep of [st] at [now]. *)
Definition swept (now : Z) (st : store) (k : string) : bool :=
  (negb (hidden k) && expirable now (metas st !! k))%bool.

(** A record the sweep passes over: it does not decode, or its
    [expiresAt] is missing or empty. *)
Definition malformed (c : option meta) : bool :=
  match c with
  | None => true
  | Some m => empty_date (m_expiresAt m)
  end.

(** No record carries a date text that makes [DateTimeImmutable] throw. *)
Definition no_junk (st : store) : Prop :=
  forall k m, metas st !! k = Some (Some m) -> m_expiresAt m <> Some DJunk.

(** The path [p] is named by the record [c]. *)
Definition names (p : string) (c : option meta) : Prop :=
  exists m, c = Some m /\ m_path m = Some p.


Section Issued.
Context `{Runtime}.
Variable cfg : config.

(** The record of stem [k] is one that an upload wrote under that id. *)
Definition issued (k : string) (c : option meta) : Prop :=
  exists e u, new_id e = k /\ c = written_meta (upload_meta cfg e u).

(** Every metadata file of the directory was written by an upload. *)
Definition wf_store (st : store) : Prop :=
  forall k c, metas st !! k = Some c -> issued k c.

End Issued.

(** What the preview of the file at a path has to list: the content
    entries of the archive [ZipArchive] opens there, nothing when there is
    no file or it does not open. *)
Definition archive_listing `{Runtime} (file : option (list byte))
  : list preview_entry :=
  match file ≫= zip_open with
  | Some a => content_entries a
  | None => []
  end.

(** What a run of the sweep over the stems [P] may have changed between
    two states: a record is as before or gone, and gone only if its stem
    is in [P] and it was expirable; a payload is as before or gone, and
    gone only if an expirable record of a stem in [P] named it. *)
Definition shrinks (P : string -> Prop) (now : Z) (st st' : store) : Prop :=
  (forall k, metas st' !! k = metas st !! k \/
             (metas st' !! k = None /\ P k /\ expirable now (metas st !! k) = true)) /\
  (forall p, objs st' !! p = objs st !! p \/
             (objs st' !! p = None /\
              exists k m, P k /\ metas st !! k = Some (Some m) /\
                          expirable now (metas st !! k) = true /\
                          m_path m = Some p)).

(** ** Sample directories and runs *)

(** A PHP installation whose [json_encode] accepts every name and which
    has no zip extension. *)
Definition plain_runtime : Runtime :=
  {| json_encodable := fun _ => true; zip_open := fun _ => None |}.

Definition sample_config : config := script_config "/var/www".

Definition sample_id : string := "0a1b2c3d4e5f".

Definition sample_path : string := "/var/www/uploads/0a1b2c3d4e5f__report.pdf".

Definition sample_bytes : list byte := [x25; x50; x44].

(** The record of an upload of [report.pdf] that expires at second
    [expires]. *)
Definition sample_meta (expires : Z) : meta :=
  Meta (Some sample_id) (Some "report.pdf") (Some "0a1b2c3d4e5f__report.pdf")
       (Some sample_path) (Some 3)
       (Some (DAtom expires)) (Some (DAtom (expires - 172800))).

(** A directory with that upload alone. *)
Definition sample_store (expires : Z) : store :=
  Store {[ sample_path := sample_bytes ]}
        {[ sample_id := Some (sample_meta expires) ]} [].

(** The same record without its [expiresAt] key. *)
Definition undated_meta : meta :=
  Meta (Some sample_id) (Some "report.pdf") (Some "0a1b2c3d4e5f__report.pdf")
       (Some sample_path) (Some 3) None None.

(** A directory where the undated record and a second, expired record
    name the same payload. *)
Definition aliased_store : store :=
  Store {[ sample_path := sample_bytes ]}
        (<[ sample_id := Some undated_meta ]>
           {[ "ffffffffffff" := Some (sample_meta 0) ]}) [].

(** A directory with a payload and no record for it. *)
Definition orphan_store : store :=
  Store {[ sample_path := sample_bytes ]} ∅ [].

(** A directory with a record, not yet expired at second 0, whose payload
    is gone. *)
Definition stray_record_store : store :=
  Store ∅ {[ sample_id := Some (sample_meta 172800) ]} [].

(** A directory whose only metadata file, [g.json], does not decode. *)
Definition garbled_store : store := Store ∅ {[ "g" := None ]} [].

(** A run whose clock reads [t] everywhere. *)
Definition env_at (t : Z) : env :=
  Env t t t t t (Six x0a x1b x2c x3d x4e x5f) true "http://localhost/fileShare.php".

Definition get_request (id : string) (info : bool) : request :=
  Request GET None None (Some id) info.

Definition post_request (u : upfile) : request :=
  Request POST (Some "upload") (Some u) None false.

(** A configuration with a maximum of four bytes. *)
Definition tiny_config : config := Config "/var/www/uploads" 48 4.

(** An upload of three bytes named [report.pdf], and one of the same
    bytes from a file whose name is the one character 0. *)
Definition report_upload : upfile := Upfile "report.pdf" 0 sample_bytes.
Definition zero_upload : upfile := Upfile "0" 0 sample_bytes.

(** A run of the upload whose clock passes from one second to the next
    between the reading for [expiresAt] (line 161) and the reading for
    [uploadedAt] (line 169). *)
Definition drift_env : env :=
  Env 0 999999 1000000 1000000 1000000 (Six x0a x1b x2c x3d x4e x5f) true
    "http://localhost/fileShare.php".

(** A run that differs from [env_at 0] in the last random byte. *)
Definition other_env : env :=
  Env 0 0 0 0 0 (Six x0a x1b x2c x3d x4e x60) true "http://localhost/fileShare.php".

(** An upload whose name tries to leave the upload directory. *)
Definition traversal_upload : upfile := Upfile "../../etc/passwd" 0 sample_bytes.

(** A PHP installation with a toy archive format, one byte per slot of
    the central directory: the byte [/] is a folder placeholder, any
    other byte a file of that many bytes. *)
Definition toy_zip_open (bytes : list byte) : option archive :=
  Some (map (fun b =>
               if Byte.eqb b x2f then ZipEntry (Some "folder/") (Some 0)
               else ZipEntry (Some "folder/file") (Some (Z.of_N (Byte.to_N b))))
          bytes).

Definition toy_runtime : Runtime :=
  {| json_encodable := fun _ => true; zip_open := toy_zip_open |}.

(** An archive of that format with 500 files in 20 folders. *)
Definition big_archive : list byte :=
  flat_map (fun _ => x2f :: repeat x07 25) (seq 0 20).

(** ** The caller: src/utils/fileUtils.ts *)

Module Js.

(** [x || d] for a string [x] that may be undefined: the empty string
    and [undefined] give [d] (the text 0 does not, unlike in PHP). *)
Definition or_else (x : option string) (d : string) : string :=
  match x with
  | Some (String c r) => String c r
  | _ => d
  end.

(** [s.endsWith(suf)]. *)
Fixpoint ends_with (suf s : string) : bool :=
  if String.eqb s suf then true
  else match s with
       | EmptyString => false
       | String _ r => ends_with suf r
       end.

(** [s.replace(/\/$/, '')]: one slash at the very end is dropped. *)
Fixpoint drop_last_slash (s : string) : string :=
  match s with
  | EmptyString => EmptyString
  | String c r =>
      if (Ascii.eqb c "/" && String.eqb r "")%bool then EmptyString
      else String c (drop_last_slash r)
  end.

End Js.

(** [getEndpoint], as a function of the constant [rawBaseUrl]. *)
Definition getEndpoint (rawBaseUrl : string) : string :=
  if Js.ends_with ".php" rawBaseUrl then rawBaseUrl
  else Js.drop_last_slash rawBaseUrl +:+ "/fileShare.php".

(** The file name under which [uploadFolder] sends the archive it built
    ([safeName]); the zipping itself is not modelled. *)
Definition folder_upload_name (folderLabel : option string) : string :=
  Js.or_else folderLabel "folder" +:+ ".zip".

(** ** Further notions used to state properties *)

(** The text after the last dot of a name is [zip], in any case of the
    letters. *)
Definition zip_named (name : string) : bool :=
  match Php.after_last "." name with
  | Some ext => String.eqb (Php.strtolower ext) "zip"
  | None => false
  end.

Definition is_unlink (c : syscall) : bool :=
  match c with
  | UnlinkObj _ | UnlinkMeta _ => true
  | _ => false
  end.

Definition json_header : string := "Content-Type: application/json".

(** The shapes a response of the script can have: status, header lines
    and payload go together. *)
Definition well_shaped (r : response) : bool :=
  match content r with
  | NoBody =>
      (status r =? 204) && bool_decide (headers r = cors_headers)
  | Text _ =>
      bool_decide (status r ∈ [400; 404; 410]) &&
      bool_decide (headers r = cors_headers)
  | JsonFailure _ =>
      bool_decide (status r ∈ [400; 404; 405; 410; 413; 500]) &&
      bool_decide (headers r = cors_headers ++ [json_header])
  | JsonUploaded _ _ _ _ _ | JsonInfo _ =>
      (status r =? 200) && bool_decide (headers r = cors_headers ++ [json_header])
  | FileContent _ =>
      (status r =? 200) &&
      bool_decide (take 5 (headers r)
                   = cors_headers ++ ["Content-Type: application/octet-stream"]) &&
      bool_decide (length (headers r) = 8%nat)
  end.

Definition is_json (b : body) : bool :=
  match b with
  | JsonFailure _ | JsonUploaded _ _ _ _ _ | JsonInfo _ => true
  | _ => false
  end.

Section Traffic.
Context `{Runtime}.
Variable cfg : config.

(** The upload made in run [e] of file [u] is in place: its record and
    its payload are as the upload wrote them. *)
Definition live_upload (e : env) (u : upfile) (st : store) : Prop :=
  metas st !! new_id e = Some (Some (upload_meta cfg e u)) /\
  objs st !! targetPath cfg e u = Some (up_bytes u).

(** A run that comes before the upload of run [e0] expires and, if it is
    an upload, draws another id. *)
Definition spares (e0 : env) (run : env * request) : Prop :=
  now_sweep run.1 <= expiresAt_of cfg e0 * usec /\
  now_check run.1 <= expiresAt_of cfg e0 * usec /\
  (method run.2 = POST -> new_id run.1 <> new_id e0).

(** Runs of the script one after the other: the directory at the end,
    and the results in order. *)
Fixpoint run_seq (runs : list (env * request)) (st : store) : store :=
  match runs with
  | [] => st
  | (e, r) :: runs' => run_seq runs' (serve cfg e r st).2
  end.

Fixpoint run_results (runs : list (env * request)) (st : store) : list result :=
  match runs with
  | [] => []
  | (e, r) :: runs' => (serve cfg e r st).1 :: run_results runs' (serve cfg e r st).2
  end.

End Traffic.

(** The directory after the upload of [report.pdf] in run [env_at 0]. *)
Definition report_store : store :=
  (@serve plain_runtime sample_config (env_at 0) (post_request report_upload)
     empty_store).2.


(** A run in which [move_uploaded_file] fails. *)
Definition full_disk_env : env :=
  Env 0 0 0 0 0 (Six x0a x1b x2c x3d x4e x5f) false "http://localhost/fileShare.php".

(** An upload of another file in a run that draws the random bytes of
    [env_at 0] again. *)
Definition notes_upload : upfile := Upfile "notes.txt" 0 [x68; x69].

(** A second file named [report.pdf], of other bytes. *)
Definition second_report_upload : upfile := Upfile "report.pdf" 0 [x68; x69].

(** ** The body on the wire: line 37 *)

(** The strings that [json_encode] has to write for a payload. *)
Definition payload_strings (b : body) : list string :=
  match b with
  | JsonFailure msg => [msg]
  | JsonUploaded id filename url _ _ => [id; filename; url]
  | JsonInfo i =>
      [i_id i; i_filename i]
      ++ match i_zip i with
         | Some z => map pe_name (zipContents z)
         | None => []
         end
  | NoBody | Text _ | FileContent _ => []
  end.

(** [echo json_encode($payload)]: when [json_encode] refuses one of the
    strings it returns [false] and [echo] prints nothing; the status and
    the header lines are sent as set, with an empty body. *)
Definition echoed `{Runtime} (b : body) : body :=
  if forallb json_encodable (payload_strings b) then b else NoBody.

Definition on_wire `{Runtime} (r : result) : result :=
  match r with
  | Sent (Response code lines b) => Sent (Response code lines (echoed b))
  | Crashed => Crashed
  end.

(** A PHP installation whose [json_encode] refuses every string with a
    byte above 127 (a simplification of its UTF-8 check), without zip
    extension; and an upload whose file name starts with the Latin-1
    byte 233. *)
Definition picky_runtime : Runtime :=
  {| json_encodable := Php.str_forall (Php.in_range 0 127);
     zip_open := fun _ => None |}.

Definition latin1_upload : upfile :=
  Upfile (String (ascii_of_N 233) ".txt") 0 sample_bytes.

(** ** The preview in the words of its description *)

(** A directory placeholder is a slot whose name has [/] as its last
    character. *)
Definition is_placeholder (n : string) : bool :=
  match String.get (Nat.pred (String.length n)) n with
  | Some c => Ascii.eqb c "/"
  | None => false
  end.

(** The slots to list, in directory order, as pairs of name and size:
    those whose name can be read and is no placeholder; a slot without
    size counts as of size 0. *)
Definition listed_slots (a : archive) : list (string * Z) :=
  flat_map (fun e =>
              match ze_name e with
              | Some n => if is_placeholder n then [] else [(n, default 0 (ze_size e))]
              | None => []
              end) a.

(** The preview to expect of what [ZipArchive] opens: the first 200
    listed slots, and whether there are more. *)
Definition expected_preview (opened : option archive) : zip_preview :=
  match opened with
  | Some a =>
      ZipPreview (map (fun s => PreviewEntry s.1 s.2) (firstn 200 (listed_slots a)))
                 (200 <? length (listed_slots a))%nat
  | None => ZipPreview [] false
  end.

(** An archive with a folder placeholder, a file in the folder, a slot
    whose name cannot be read, a file without size and a file with the
    empty name; and a PHP installation that finds it in every file. *)
Definition mixed_archive : archive :=
  [ ZipEntry (Some "docs/") (Some 0);
    ZipEntry (Some "docs/a.txt") (Some 5);
    ZipEntry None (Some 9);
    ZipEntry (Some "b.bin") None;
    ZipEntry (Some "") (Some 1) ].

Definition mixed_runtime : Runtime :=
  {| json_encodable := fun _ => true; zip_open := fun _ => Some mixed_archive |}.

(** ** The sweep over one directory tree *)

(** The maps [objs] and [metas] are two views of one file system: the
    record of stem [k] is the file [k.json] of the metadata directory
    (lines 22 and 109).  The [path] of a record is a text like any other
    and may be the path of a metadata file; [file_exists] and [unlink]
    (lines 123-124) then act on that file. *)
Definition metaDir (cfg : config) : string := uploadDir cfg +:+ "/meta".

Definition metaPath (cfg : config) (k : string) : string :=
  Php.rtrim_slash (metaDir cfg) +:+ "/" +:+ k +:+ ".json".

(** The stem of the metadata file found at path [p], if there is one. *)
Definition meta_stem_at (cfg : config) (p : string) (st : store) : option string :=
  List.find (fun k => String.eqb (metaPath cfg k) p) (map_to_list (metas st)).*1.

(** [file_exists($p)] and [unlink($p)] for a path of either kind. *)
Definition path_exists (cfg : config) (p : string) (st : store) : bool :=
  match meta_stem_at cfg p st with
  | Some _ => true
  | None => file_exists p st
  end.

Definition unlink_path (cfg : config) (p : string) (st : store) : store :=
  match meta_stem_at cfg p st with
  | Some k => unlink_meta k st
  | None => unlink_obj p st
  end.

(** Lines 123-125. *)
Definition tree_unlink_if_present (cfg : config) (path : option string) (st : store)
  : store :=
  match path with
  | Some p =>
      if (Php.truthy p && path_exists cfg p st)%bool then unlink_path cfg p st else st
  | None => st
  end.

(** Lines 116-127; a file that an earlier turn of the loop has unlinked
    reads as the empty text and is passed over. *)
Definition tree_sweep_file (cfg : config) (now : Z) (k : string) (st : store) : run :=
  match metas st !! k with
  | Some (Some data) =>
      if empty_date (m_expiresAt data) then Done st
      else
        match m_expiresAt data ≫= parse_date now with
        | None => Fatal st
        | Some expires =>
            if expires <? now
            then Done (unlink_meta k (tree_unlink_if_present cfg (m_path data) st))
            else Done st
        end
  | _ => Done st
  end.

Fixpoint tree_sweep_loop (cfg : config) (now : Z) (ks : list string) (st : store)
  : run :=
  match ks with
  | [] => Done st
  | k :: ks' =>
      match tree_sweep_file cfg now k st with
      | Done st' => tree_sweep_loop cfg now ks' st'
      | Fatal st' => Fatal st'
      end
  end.

Definition tree_cleanupExpired (cfg : config) (now : Z) (st : store) : run :=
  match glob_json st with
  | [] => Done st
  | metaFiles => tree_sweep_loop cfg now metaFiles st
  end.

(** The path [p] is the [path] of a record with a stem in [P] that is
    expirable at [now]. *)
Definition taken (P : string -> Prop) (now : Z) (st : store) (p : string) : Prop :=
  exists k m, P k /\ metas st !! k = Some (Some m) /\
              expirable now (metas st !! k) = true /\ m_path m = Some p.

(** What a run of the sweep over the stems [P] may have changed in the
    tree: a record is as before or gone, and gone only if it was
    expirable with its stem in [P], or if such a record named its file; a
    payload is as before or gone, and gone only if such a record named
    it. *)
Definition tree_shrinks (cfg : config) (P : string -> Prop) (now : Z)
    (st st' : store) : Prop :=
  (forall k, metas st' !! k = metas st !! k \/
             (metas st' !! k = None /\
              ((P k /\ expirable now (metas st !! k) = true) \/
               taken P now st (metaPath cfg k)))) /\
  (forall p, objs st' !! p = objs st !! p \/
             (objs st' !! p = None /\ taken P now st p)).

(** No record names a metadata file. *)
Definition tree_free (cfg : config) (st : store) : Prop :=
  forall k m k', metas st !! k = Some (Some m) -> m_path m <> Some (metaPath cfg k').

(** A directory with a metadata file [g.json] that does not decode, and
    an expired record whose [path] is that file. *)
Definition pointing_meta : meta :=
  Meta (Some "ffffffffffff") (Some "report.pdf") (Some "ffffffffffff__report.pdf")
       (Some "/var/www/uploads/meta/g.json") (Some 3)
       (Some (DAtom 0)) (Some (DAtom 0)).

Definition pointing_store : store :=
  Store ∅ (<[ "ffffffffffff" := Some pointing_meta ]> {[ "g" := None ]}) [].

(** The shapes of a response on the wire: those of [well_shaped], and
    the JSON answer whose payload [json_encode] refused, sent with its
    status and header lines and an empty body. *)
Definition wire_shaped (r : response) : bool :=
  match content r with
  | NoBody =>
      ((status r =? 204) && bool_decide (headers r = cors_headers)) ||
      (bool_decide (status r ∈ [200; 400; 404; 405; 410; 413; 500]) &&
       bool_decide (headers r = cors_headers ++ [json_header]))
  | _ => well_shaped r
  end.

(** * Properties *)

(** ** Strings *)

Lemma str_forall_app p a b :
  Php.str_forall p (a +:+ b) = (Php.str_forall p a && Php.str_forall p b)%bool.
Proof.
  induction a as [|c a IH]; simpl; [reflexivity|].
  rewrite IH. now rewrite andb_assoc.
Qed.

Lemma str_forall_impl (p q : ascii -> bool) s :
  (forall c, p c = true -> q c = true) ->
  Php.str_forall p s = true -> Php.str_forall q s = true.
Proof.
  intros Hpq. induction s as [|c s IH]; simpl; [reflexivity|].
  rewrite !andb_true_iff. intros [Hc Hs]. auto.
Qed.

Lemma lower_hex_alnum c : Php.is_lower_hex c = true -> Php.is_alnum c = true.
Proof.
  unfold Php.is_lower_hex, Php.is_alnum, Php.is_lower, Php.is_upper,
    Php.is_digit, Php.in_range.
  rewrite !orb_true_iff, !andb_true_iff, !N.leb_le. lia.
Qed.

Lemma alnum_safe c : Php.is_alnum c = true -> Php.is_safe c = true.
Proof. unfold Php.is_safe. intros ->. reflexivity. Qed.

Lemma safe_not_slash c : Php.is_safe c = true -> Ascii.eqb c "/" = false.
Proof.
  intros Hc. destruct (Ascii.eqb_spec c "/") as [->|]; [|reflexivity].
  vm_compute in Hc. discriminate.
Qed.

Lemma str_forall_map (p : ascii -> bool) (f : ascii -> ascii) s :
  (forall c, p (f c) = true) -> Php.str_forall p (Php.str_map f s) = true.
Proof.
  intros Hf. induction s as [|c s IH]; simpl; [reflexivity|].
  now rewrite Hf, IH.
Qed.

Lemma str_forall_filter (p : ascii -> bool) s :
  Php.str_forall p (Php.str_filter p s) = true.
Proof.
  induction s as [|c s IH]; simpl; [reflexivity|].
  destruct (p c) eqn:Hc; simpl; [rewrite Hc|]; exact IH.
Qed.

Lemma str_filter_fixed (p : ascii -> bool) s :
  Php.str_forall p s = true -> Php.str_filter p s = s.
Proof.
  induction s as [|c s IH]; simpl; [reflexivity|].
  rewrite andb_true_iff. intros [-> Hs]. now rewrite IH.
Qed.

Lemma sanitize_name_safe s : Php.str_forall Php.is_safe (Php.sanitize_name s) = true.
Proof.
  apply str_forall_map. intros c.
  destruct (Php.is_safe c) eqn:Hc; [exact Hc | reflexivity].
Qed.

Lemma sanitize_id_alnum s : Php.str_forall Php.is_alnum (Php.sanitize_id s) = true.
Proof. apply str_forall_filter. Qed.

Lemma sanitize_id_fixed s :
  Php.str_forall Php.is_alnum s = true -> Php.sanitize_id s = s.
Proof. apply str_filter_fixed. Qed.

Lemma sanitize_id_idem s : Php.sanitize_id (Php.sanitize_id s) = Php.sanitize_id s.
Proof. apply sanitize_id_fixed, sanitize_id_alnum. Qed.

Lemma elvis_safe s d :
  Php.str_forall Php.is_safe s = true -> Php.str_forall Php.is_safe d = true ->
  Php.str_forall Php.is_safe (Php.elvis s d) = true.
Proof. unfold Php.elvis. now destruct (Php.truthy s). Qed.

Lemma safe_no_slash s :
  Php.str_forall Php.is_safe s = true -> str_contains "/" s = false.
Proof.
  induction s as [|c s IH]; simpl; [reflexivity|].
  rewrite andb_true_iff. intros [Hc Hs].
  now rewrite (safe_not_slash c Hc), IH.
Qed.

Lemma after_last_absent sep s :
  str_contains sep s = false -> Php.after_last sep s = None.
Proof.
  induction s as [|c s IH]; simpl; [reflexivity|].
  rewrite orb_false_iff. intros [Hc Hs]. now rewrite IH, Hc.
Qed.

Lemma after_last_app sep d s :
  str_contains sep s = false ->
  Php.after_last sep (d +:+ String sep s) = Some s.
Proof.
  intros Hs. induction d as [|c d IH]; simpl.
  - now rewrite after_last_absent, Ascii.eqb_refl.
  - now rewrite IH.
Qed.

Lemma hex_of_byte_hex b : Php.str_forall Php.is_lower_hex (Php.hex_of_byte b) = true.
Proof. destruct b; reflexivity. Qed.

Lemma bin2hex_hex l : Php.str_forall Php.is_lower_hex (Php.bin2hex l) = true.
Proof.
  induction l as [|b l IH]; [reflexivity|]. cbn [Php.bin2hex].
  now rewrite str_forall_app, hex_of_byte_hex, IH.
Qed.

Lemma hex2bin_cons b r :
  Php.hex2bin (Php.hex_of_byte b +:+ r) = cons b <$> Php.hex2bin r.
Proof.
  destruct b; simpl; change (String.app "" r) with r;
    destruct (Php.hex2bin r); reflexivity.
Qed.

Lemma hex2bin_bin2hex l : Php.hex2bin (Php.bin2hex l) = Some l.
Proof.
  induction l as [|b l IH]; [reflexivity|]. cbn [Php.bin2hex].
  now rewrite hex2bin_cons, IH.
Qed.

Lemma bin2hex_inj l1 l2 : Php.bin2hex l1 = Php.bin2hex l2 -> l1 = l2.
Proof.
  intros Heq. apply (f_equal Php.hex2bin) in Heq.
  rewrite !hex2bin_bin2hex in Heq. congruence.
Qed.

Lemma six_list_inj r1 r2 : six_list r1 = six_list r2 -> r1 = r2.
Proof. destruct r1, r2. unfold six_list. simpl. congruence. Qed.

Lemma new_id_inj e1 e2 : new_id e1 = new_id e2 -> random6 e1 = random6 e2.
Proof. intros Heq. now apply six_list_inj, bin2hex_inj. Qed.

Lemma new_id_length e : String.length (new_id e) = 12%nat.
Proof.
  unfold new_id. destruct (random6 e) as [a b c d f g]. reflexivity.
Qed.

Lemma new_id_hex e : Php.str_forall Php.is_lower_hex (new_id e) = true.
Proof. apply bin2hex_hex. Qed.

Lemma truthy_length s : (2 <= String.length s)%nat -> Php.truthy s = true.
Proof.
  destruct s as [|c [|d s]]; simpl; try lia. intros _.
  unfold Php.truthy. simpl. destruct (Ascii.eqb c "0"); reflexivity.
Qed.

Lemma new_id_truthy e : Php.truthy (new_id e) = true.
Proof. apply truthy_length. rewrite new_id_length. lia. Qed.

Lemma new_id_sanitized e : Php.sanitize_id (new_id e) = new_id e.
Proof.
  apply sanitize_id_fixed.
  eapply str_forall_impl; [apply lower_hex_alnum | apply new_id_hex].
Qed.

Lemma storedName_safe e u : Php.str_forall Php.is_safe (storedName e u) = true.
Proof.
  unfold storedName. rewrite !str_forall_app.
  rewrite (str_forall_impl Php.is_lower_hex Php.is_safe (new_id e));
    [| intros c Hc; now apply alnum_safe, lower_hex_alnum | apply new_id_hex].
  rewrite elvis_safe; [reflexivity | apply sanitize_name_safe | reflexivity].
Qed.

Lemma app_prefix_inj (a b x y : string) :
  String.length a = String.length b -> a +:+ x = b +:+ y -> a = b /\ x = y.
Proof.
  revert b. induction a as [|c a IH]; intros [|d b]; simpl; try discriminate.
  - auto.
  - intros Hlen Heq. injection Hlen as Hlen. injection Heq as -> Heq.
    destruct (IH b Hlen Heq) as [-> ->]. auto.
Qed.

Lemma targetPath_inj cfg e1 e2 u1 u2 :
  targetPath cfg e1 u1 = targetPath cfg e2 u2 -> new_id e1 = new_id e2.
Proof.
  unfold targetPath, storedName. intros Heq.
  do 2 apply String.app_inj in Heq.
  apply app_prefix_inj in Heq; [tauto|].
  now rewrite !new_id_length.
Qed.

(** ** The archive preview *)

Lemma content_entries_cons e a :
  content_entries (e :: a) =
  match content_name e with
  | Some n => entry_of n e :: content_entries a
  | None => content_entries a
  end.
Proof. unfold content_entries. simpl. now destruct (content_name e). Qed.

Lemma any_content_spec a :
  any_content a = bool_decide (0 < length (content_entries a))%nat.
Proof.
  induction a as [|e a IH]; [reflexivity|].
  rewrite content_entries_cons. simpl. unfold is_content.
  destruct (content_name e); [|exact IH].
  reflexivity.
Qed.

Lemma scan_entries_spec limit a acc :
  0 < limit -> Z.of_nat (length acc) < limit ->
  scan_entries limit a acc =
  ZipPreview (take (Z.to_nat limit) (acc ++ content_entries a))
    (bool_decide (Z.to_nat limit < length (acc ++ content_entries a))%nat).
Proof.
  intros Hpos. revert acc.
  induction a as [|e a IH]; intros acc Hacc.
  - simpl. rewrite app_nil_r, take_ge by lia.
    f_equal. symmetry. apply bool_decide_eq_false_2. lia.
  - rewrite content_entries_cons. simpl.
    destruct (content_name e) as [n|]; [|now apply IH].
    destruct (Z.geb_spec (Z.of_nat (length (acc ++ [entry_of n e]))) limit) as [Hfull|Hroom].
    + rewrite length_app in Hfull. simpl in Hfull.
      assert (Hlen : length (acc ++ [entry_of n e]) = Z.to_nat limit)
        by (rewrite length_app; simpl; lia).
      replace (acc ++ entry_of n e :: content_entries a)
        with ((acc ++ [entry_of n e]) ++ content_entries a)
        by now rewrite <- app_assoc.
      rewrite (take_app_length' (acc ++ [entry_of n e])) by now rewrite Hlen.
      f_equal. rewrite any_content_spec.
      apply bool_decide_ext. rewrite (length_app (acc ++ _)), Hlen. lia.
    + rewrite IH by lia.
      now rewrite <- app_assoc.
Qed.

Lemma buildZipPreview_spec `{Runtime} (file : option (list byte)) :
  buildZipPreview file preview_limit =
  ZipPreview (take 200 (archive_listing file))
    (bool_decide (200 < length (archive_listing file))%nat).
Proof.
  unfold buildZipPreview, archive_listing.
  destruct file as [bytes|]; [simpl | reflexivity].
  destruct (zip_open bytes) as [a|]; [|reflexivity].
  now rewrite scan_entries_spec.
Qed.

(** An archive of 500 files in 20 folders, and one of 50 files. *)
Example preview_500_files :
  let a := flat_map (fun d => ZipEntry (Some "dir/") (Some 0)
                      :: repeat (ZipEntry (Some "dir/file") (Some 7)) 25)
             (seq 0 20) in
  let pv := scan_entries preview_limit a [] in
  length (zipContents pv) = 200%nat /\ zipTruncated pv = true.
Proof. vm_compute. split; reflexivity. Qed.

Example preview_50_files :
  let a := repeat (ZipEntry (Some "file") None) 50 ++ [ZipEntry None None] in
  let pv := scan_entries preview_limit a [] in
  length (zipContents pv) = 50%nat /\ zipTruncated pv = false.
Proof. vm_compute. split; reflexivity. Qed.

(** An upload of [big_archive] under the name [site.ZIP], then the info
    request for it: the object is taken for an archive by its extension,
    the preview has 200 entries and is marked as truncated. *)
Example info_previews_big_archive :
  exists i,
    (@serve toy_runtime sample_config (env_at 1) (get_request sample_id true)
       (@serve toy_runtime sample_config (env_at 0)
          (post_request (Upfile "site.ZIP" 0 big_archive)) empty_store).2).1
    = jsonResponse (JsonInfo i) 200 /\
    i_isZip i = true /\ i_size i = 520 /\
    (length <$> (zipContents <$> i_zip i)) = Some 200%nat /\
    (zipTruncated <$> i_zip i) = Some true.
Proof. eexists. split; [vm_compute; reflexivity|]. repeat split. Qed.

(** ** The expiry sweep *)

Lemma shrinks_refl P now st : shrinks P now st st.
Proof. split; intros; now left. Qed.

Lemma shrinks_trans P now st1 st2 st3 :
  shrinks P now st1 st2 -> shrinks P now st2 st3 -> shrinks P now st1 st3.
Proof.
  intros [Hm12 Ho12] [Hm23 Ho23]. split.
  - intros k. destruct (Hm23 k) as [E23|(E23 & HP & Hx)].
    + rewrite E23. apply Hm12.
    + right. split; [exact E23|]. split; [exact HP|].
      destruct (Hm12 k) as [E12|(E12 & _ & _)]; rewrite E12 in Hx;
        [exact Hx | discriminate].
  - intros p. destruct (Ho23 p) as [E23|(E23 & k & m & HP & Hk & Hx & Hp)].
    + rewrite E23. apply Ho12.
    + right. split; [exact E23|]. exists k, m.
      destruct (Hm12 k) as [E12|(E12 & _ & _)]; rewrite E12 in Hk, Hx;
        [auto | discriminate].
Qed.

Lemma unlink_if_present_metas path st :
  metas (unlink_if_present path st) = metas st.
Proof.
  unfold unlink_if_present. destruct path as [p|]; [|reflexivity].
  now destruct (Php.truthy p && file_exists p st)%bool.
Qed.

Lemma unlink_if_present_objs path st q :
  objs (unlink_if_present path st) !! q = objs st !! q \/
  (objs (unlink_if_present path st) !! q = None /\ path = Some q).
Proof.
  unfold unlink_if_present. destruct path as [p|]; [|now left].
  destruct (Php.truthy p && file_exists p st)%bool; [|now left].
  simpl. destruct (decide (p = q)) as [->|Hne].
  - right. now rewrite lookup_delete_eq.
  - left. now rewrite lookup_delete_ne.
Qed.

Lemma unlink_if_present_gone p st :
  Php.truthy p = true -> objs (unlink_if_present (Some p) st) !! p = None.
Proof.
  intros Hp. unfold unlink_if_present, file_exists. rewrite Hp. simpl.
  destruct (objs st !! p) eqn:E; simpl; [apply lookup_delete_eq | exact E].
Qed.

Lemma unlink_if_present_journal p st :
  journal (unlink_if_present (Some p) st) =
  journal st ++ (if (Php.truthy p && file_exists p st)%bool then [UnlinkObj p] else []).
Proof.
  unfold unlink_if_present.
  destruct (Php.truthy p && file_exists p st)%bool; simpl;
    [reflexivity | now rewrite app_nil_r].
Qed.

(** The two ways the loop body can go: it leaves the directory as it is
    (possibly ending the run in a fatal error), or the record is expirable
    and both unlinks are made. *)
Lemma sweep_file_cases now k st :
  (expirable now (metas st !! k) = false /\
   final (sweep_file now k st) = st) \/
  (exists m, metas st !! k = Some (Some m) /\
             expirable now (metas st !! k) = true /\
             sweep_file now k st =
             Done (unlink_meta k (unlink_if_present (m_path m) st))).
Proof.
  unfold sweep_file, expirable.
  destruct (metas st !! k) as [[m|]|]; try (left; split; reflexivity).
  destruct (m_expiresAt m) as [[s| |]|]; simpl; try (left; split; reflexivity).
  destruct (s * usec <? now) eqn:Hlt.
  - right. exists m. repeat split; reflexivity.
  - left. split; reflexivity.
Qed.

Lemma sweep_file_done now k st :
  no_junk st -> exists st', sweep_file now k st = Done st'.
Proof.
  intros Hj. unfold sweep_file.
  destruct (metas st !! k) as [[m|]|] eqn:Hk; try (eexists; reflexivity).
  specialize (Hj k m Hk).
  destruct (m_expiresAt m) as [[s| |]|]; simpl; try (eexists; reflexivity).
  - destruct (s * usec <? now); eexists; reflexivity.
  - congruence.
Qed.

Lemma sweep_file_shrinks (P : string -> Prop) now k st :
  P k -> shrinks P now st (final (sweep_file now k st)).
Proof.
  intros HP. destruct (sweep_file_cases now k st) as [[_ ->]|(m & Hk & Hx & ->)];
    [apply shrinks_refl|].
  split; simpl.
  - intros k'. rewrite unlink_if_present_metas.
    destruct (decide (k = k')) as [<-|Hne].
    + right. now rewrite lookup_delete_eq.
    + left. now rewrite lookup_delete_ne.
  - intros p. destruct (unlink_if_present_objs (m_path m) st p) as [E|[E Hp]];
      [now left|].
    right. split; [exact E|]. now exists k, m.
Qed.

Lemma sweep_loop_shrinks (P : string -> Prop) now ks st :
  (forall k, k ∈ ks -> P k) -> shrinks P now st (final (sweep_loop now ks st)).
Proof.
  revert st. induction ks as [|k ks IH]; intros st HP; [apply shrinks_refl|].
  simpl. pose proof (sweep_file_shrinks P now k st (HP k (list_elem_of_here _ _))) as Hstep.
  destruct (sweep_file now k st) as [st1|st1]; simpl in *; [|exact Hstep].
  eapply shrinks_trans; [exact Hstep|].
  apply IH. intros k' Hk'. apply HP. now apply list_elem_of_further.
Qed.

Lemma shrinks_no_junk P now st st' :
  shrinks P now st st' -> no_junk st -> no_junk st'.
Proof.
  intros [Hm _] Hj k m Hk. destruct (Hm k) as [E|[E _]]; rewrite E in Hk;
    [eauto | discriminate].
Qed.

Lemma sweep_loop_done_ex now ks st :
  no_junk st -> exists st', sweep_loop now ks st = Done st'.
Proof.
  revert st. induction ks as [|k ks IH]; intros st Hj; simpl; [eauto|].
  destruct (sweep_file_done now k st Hj) as [st1 Hst1].
  pose proof (sweep_file_shrinks (fun _ => True) now k st I) as Hsh.
  rewrite Hst1 in *. simpl in Hsh.
  apply IH. eapply shrinks_no_junk; eauto.
Qed.

(** After a sweep that ran to its end, an expirable record of a visited
    stem is gone, and so is the payload it names. *)
Lemma sweep_loop_removes now ks st st' k m :
  sweep_loop now ks st = Done st' ->
  k ∈ ks -> metas st !! k = Some (Some m) ->
  expirable now (metas st !! k) = true ->
  metas st' !! k = None /\
  (forall p, m_path m = Some p -> Php.truthy p = true -> objs st' !! p = None).
Proof.
  revert st. induction ks as [|k0 ks IH]; intros st Hrun Hin Hk Hx.
  - now apply elem_of_nil in Hin.
  - simpl in Hrun.
    destruct (sweep_file now k0 st) as [st1|st1] eqn:Hstep; [|discriminate].
    pose proof (sweep_loop_shrinks (fun _ => True) now ks st1 (fun _ _ => I)) as Hrest.
    rewrite Hrun in Hrest. simpl in Hrest. destruct Hrest as [Hm Ho].
    destruct (decide (k = k0)) as [->|Hne].
    + destruct (sweep_file_cases now k0 st) as [[Hno _]|(m' & Hk' & _ & Hdone)];
        [congruence|].
      rewrite Hstep in Hdone. injection Hdone as ->.
      assert (m' = m) as -> by congruence.
      split.
      * destruct (Hm k0) as [E|[E _]]; [|exact E].
        rewrite E. simpl. apply lookup_delete_eq.
      * intros p Hp Ht. destruct (Ho p) as [E|[E _]]; [|exact E].
        rewrite E, Hp. simpl. now apply unlink_if_present_gone.
    + apply elem_of_cons in Hin as [?|Hin]; [contradiction|].
      assert (Hsame : metas st1 !! k = metas st !! k).
      { destruct (sweep_file_cases now k0 st) as [[_ Hf]|(m' & _ & _ & Hdone)].
        - rewrite Hstep in Hf. simpl in Hf. now subst.
        - rewrite Hstep in Hdone. injection Hdone as ->. simpl.
          rewrite unlink_if_present_metas. now apply lookup_delete_ne. }
      apply (IH st1 Hrun Hin); now rewrite Hsame.
Qed.

Lemma elem_of_glob k st :
  k ∈ glob_json st <-> hidden k = false /\ is_Some (metas st !! k).
Proof.
  unfold glob_json. rewrite merge_sort_Permutation, list_elem_of_filter.
  rewrite list_elem_of_fmap. split.
  - intros [Hv [[k' c] [-> Hin]]]. split; [exact Hv|].
    apply elem_of_map_to_list in Hin. simpl. eauto.
  - intros [Hv [c Hc]]. split; [exact Hv|].
    exists (k, c). split; [reflexivity|]. now apply elem_of_map_to_list.
Qed.

Lemma cleanupExpired_loop now st :
  cleanupExpired now st = sweep_loop now (glob_json st) st.
Proof. unfold cleanupExpired. now destruct (glob_json st). Qed.

Lemma swept_glob now st k :
  swept now st k = true <->
  k ∈ glob_json st /\ expirable now (metas st !! k) = true.
Proof.
  unfold swept. rewrite andb_true_iff, negb_true_iff, elem_of_glob. split.
  - intros [Hv Hx]. repeat split; try assumption.
    destruct (metas st !! k); [eauto | discriminate].
  - tauto.
Qed.

Lemma cleanupExpired_shrinks now st :
  shrinks (fun k => k ∈ glob_json st) now st (final (cleanupExpired now st)).
Proof. rewrite cleanupExpired_loop. now apply sweep_loop_shrinks. Qed.

Lemma malformed_not_expirable now c :
  malformed c = true -> expirable now (Some c) = false.
Proof.
  destruct c as [m|]; simpl; [|reflexivity].
  now destruct (m_expiresAt m) as [[]|].
Qed.




Lemma no_junk_sample expires : no_junk (sample_store expires).
Proof.
  intros k m Hk. simpl in Hk.
  apply lookup_singleton_Some in Hk as [_ Hm].
  injection Hm as <-. discriminate.
Qed.



Example sweep_sample_run :
  swept 10000001 (sample_store 10) sample_id = true /\
  cleanupExpired 10000001 (sample_store 10) =
  Done (Store ∅ ∅ [UnlinkObj sample_path; UnlinkMeta sample_id]).
Proof. split; reflexivity. Qed.

(** ** The GET handler *)

Section GetFacts.
Context `{Runtime}.
Variable cfg : config.

Lemma handle_get_sanitized e raw info st :
  handle_get e raw info st = handle_get e (Php.sanitize_id raw) info st.
Proof. unfold handle_get. now rewrite sanitize_id_idem. Qed.

Lemma handle_get_invalid e raw info st :
  Php.truthy (Php.sanitize_id raw) = false ->
  handle_get e raw info st =
  (get_failure info 400 "Invalid file id" "Invalid download id", st).
Proof. unfold handle_get. now intros ->. Qed.

Lemma handle_get_absent e raw info st :
  Php.truthy (Php.sanitize_id raw) = true ->
  metas st !! Php.sanitize_id raw = None ->
  handle_get e raw info st = (not_found info, st).
Proof. unfold handle_get. now intros -> ->. Qed.

Lemma handle_get_unusable e raw info st c :
  Php.truthy (Php.sanitize_id raw) = true ->
  metas st !! Php.sanitize_id raw = Some c ->
  usable c st = None ->
  handle_get e raw info st =
  (not_found info, unlink_meta (Php.sanitize_id raw) st).
Proof. unfold handle_get. now intros -> -> ->. Qed.

(** The expiry branch of the handler (lines 219-229): reached with a
    usable record whose second lies before the clock reading, it answers
    410 and unlinks the payload, then the record. *)
Lemma handle_get_expired e raw info st m p s :
  Php.truthy (Php.sanitize_id raw) = true ->
  metas st !! Php.sanitize_id raw = Some (Some m) ->
  usable (Some m) st = Some (m, p) ->
  m_expiresAt m = Some (DAtom s) -> s * usec < now_check e ->
  handle_get e raw info st =
  (get_failure info 410 "Link expired" "Link expired",
   Store (delete p (objs st)) (delete (Php.sanitize_id raw) (metas st))
         (journal st ++ [UnlinkObj p; UnlinkMeta (Php.sanitize_id raw)])).
Proof.
  unfold handle_get. intros -> -> -> -> Hlt. simpl.
  apply Z.ltb_lt in Hlt. rewrite Hlt. f_equal.
  unfold unlink_meta, unlink_obj. simpl. now rewrite <- app_assoc.
Qed.

Lemma handle_get_live e raw st m p s :
  Php.truthy (Php.sanitize_id raw) = true ->
  metas st !! Php.sanitize_id raw = Some (Some m) ->
  usable (Some m) st = Some (m, p) ->
  m_expiresAt m = Some (DAtom s) -> now_check e <= s * usec ->
  handle_get e raw false st = (download_of m p st, st).
Proof.
  unfold handle_get. intros -> -> -> -> Hge. simpl.
  apply Z.ltb_ge in Hge. now rewrite Hge.
Qed.

Lemma handle_get_metas_other e raw info st k :
  Php.sanitize_id raw <> k ->
  metas (handle_get e raw info st).2 !! k = metas st !! k.
Proof.
  intros Hne. unfold handle_get.
  destruct (Php.truthy (Php.sanitize_id raw)); [|reflexivity]. simpl.
  destruct (metas st !! Php.sanitize_id raw) as [c|]; [|reflexivity].
  destruct (usable c st) as [[m p]|]; [|simpl; now apply lookup_delete_ne].
  destruct (m_expiresAt m) as [d|]; [|reflexivity].
  destruct (parse_date (now_blank e) d) as [x|]; [|reflexivity].
  destruct (x <? now_check e); [simpl; now apply lookup_delete_ne|].
  now destruct info.
Qed.

Lemma usable_shrinks c st st' :
  (forall p, objs st' !! p = objs st !! p \/ objs st' !! p = None) ->
  usable c st = None -> usable c st' = None.
Proof.
  intros Ho. unfold usable, file_exists.
  destruct c as [m|]; [|reflexivity].
  destruct (m_path m) as [p|]; [|reflexivity].
  destruct (Php.truthy p); [simpl | reflexivity].
  destruct (Ho p) as [-> | ->]; [|reflexivity].
  now destruct (objs st !! p).
Qed.

Lemma serve_get e r raw st st1 :
  method r = GET -> get_id r = Some raw ->
  cleanupExpired (now_sweep e) st = Done st1 ->
  serve cfg e r st = handle_get e raw (get_info r) st1.
Proof. unfold serve. now intros -> -> ->. Qed.

End GetFacts.

(** ** Whole runs: GET *)

Section ServeGet.
Context `{Runtime}.
Variable cfg : config.

(** C8 as it holds: a GET for an id that PHP does not take for empty
    after stripping (it is neither empty nor the text 0), whose record
    is absent, or present but without usable payload (no decodable record, no path, or no file
    at the path), answers 404 and never ends in a fatal error, provided
    no record of the directory carries a rejected date text; afterwards
    there is no record for the id, so a stray record does not survive the
    access.  Stray bytes are another matter: a payload that no record
    names is not touched by the request (nothing in the script looks for
    it), it stays where it is. *)
Theorem partial_state_not_found (e : env) (r : request) (raw : string) (st : store) :
  no_junk st ->
  method r = GET -> get_id r = Some raw ->
  Php.truthy (Php.sanitize_id raw) = true ->
  (forall c, metas st !! Php.sanitize_id raw = Some c -> usable c st = None) ->
  exists st',
    serve cfg e r st = (not_found (get_info r), st') /\
    metas st' !! Php.sanitize_id raw = None /\
    (forall p, (forall k m, metas st !! k = Some (Some m) -> m_path m <> Some p) ->
               objs st' !! p = objs st !! p).
Proof.
  intros Hj Hget Hid Ht Hpart.
  pose proof (cleanupExpired_shrinks (now_sweep e) st) as Hsh.
  rewrite cleanupExpired_loop in Hsh.
  destruct (sweep_loop_done_ex (now_sweep e) (glob_json st) st Hj) as [st1 Hrun].
  rewrite Hrun in Hsh. simpl in Hsh. destruct Hsh as [Hm Ho].
  rewrite (serve_get cfg e r raw st st1 Hget Hid)
    by now rewrite cleanupExpired_loop.
  assert (Hobjs : forall p,
            (forall k m, metas st !! k = Some (Some m) -> m_path m <> Some p) ->
            objs st1 !! p = objs st !! p).
  { intros p Hnone. destruct (Ho p) as [E|(_ & k & m & _ & Hk & _ & Hp)];
      [exact E | now destruct (Hnone k m Hk)]. }
  destruct (metas st1 !! Php.sanitize_id raw) as [c|] eqn:Hc.
  - assert (Hc0 : metas st !! Php.sanitize_id raw = Some c).
    { destruct (Hm (Php.sanitize_id raw)) as [E|[E _]]; congruence. }
    assert (Hun : usable c st1 = None).
    { apply (usable_shrinks c st); [|now apply Hpart].
      intros p. destruct (Ho p) as [E|[E _]]; auto. }
    rewrite (handle_get_unusable e raw (get_info r) st1 c Ht Hc Hun).
    eexists. split; [reflexivity|]. split; [apply lookup_delete_eq | exact Hobjs].
  - rewrite (handle_get_absent e raw (get_info r) st1 Ht Hc).
    eexists. split; [reflexivity|]. split; [exact Hc | exact Hobjs].
Qed.

(** A record that the sweep at the head of the run removes is reported
    as not found: the expiry branch of the handler is not reached. *)
Lemma serve_get_swept (e : env) (r : request) (raw : string) (st : store) :
  no_junk st ->
  method r = GET -> get_id r = Some raw ->
  Php.truthy (Php.sanitize_id raw) = true ->
  swept (now_sweep e) st (Php.sanitize_id raw) = true ->
  exists st',
    serve cfg e r st = (not_found (get_info r), st') /\
    metas st' !! Php.sanitize_id raw = None.
Proof.
  intros Hj Hget Hid Ht [Hin Hx]%swept_glob.
  destruct (sweep_loop_done_ex (now_sweep e) (glob_json st) st Hj) as [st1 Hrun].
  rewrite (serve_get cfg e r raw st st1 Hget Hid)
    by now rewrite cleanupExpired_loop.
  destruct (metas st !! Php.sanitize_id raw) as [[m|]|] eqn:Hk; try discriminate.
  assert (Hm : metas st1 !! Php.sanitize_id raw = None).
  { eapply sweep_loop_removes; eauto. now rewrite Hk. }
  rewrite (handle_get_absent e raw (get_info r) st1 Ht Hm). eauto.
Qed.

(** C7 as it holds: the handler works on the id with every character
    outside [a-zA-Z0-9] removed (upper case and the letters g to z stay,
    not only the hexadecimal digits), and nothing of the request but this
    stripped id reaches the lookup; when nothing is left the answer is
    400 and the handler leaves the directory as the sweep at the head of
    the run left it. *)
Theorem get_id_stripped (e : env) (r : request) (raw : string) (st st1 : store) :
  method r = GET -> get_id r = Some raw ->
  cleanupExpired (now_sweep e) st = Done st1 ->
  Php.sanitize_id raw = Php.str_filter Php.is_alnum raw /\
  Php.str_forall Php.is_alnum (Php.sanitize_id raw) = true /\
  (Php.str_forall Php.is_alnum raw = true -> Php.sanitize_id raw = raw) /\
  serve cfg e r st = handle_get e (Php.sanitize_id raw) (get_info r) st1 /\
  (Php.sanitize_id raw = "" ->
   serve cfg e r st =
   (get_failure (get_info r) 400 "Invalid file id" "Invalid download id", st1)).
Proof.
  intros Hget Hid Hrun.
  rewrite (serve_get cfg e r raw st st1 Hget Hid Hrun).
  split; [reflexivity|]. split; [apply sanitize_id_alnum|].
  split; [apply sanitize_id_fixed|]. split; [apply handle_get_sanitized|].
  intros Hempty. apply handle_get_invalid. now rewrite Hempty.
Qed.

End ServeGet.

Lemma no_junk_stray_record : no_junk stray_record_store.
Proof.
  intros k m Hk. simpl in Hk.
  apply lookup_singleton_Some in Hk as [_ Hm].
  injection Hm as <-. discriminate.
Qed.

Lemma partial_state_not_found_witness :
  metas stray_record_store !! sample_id = Some (Some (sample_meta 172800)) /\
  objs stray_record_store !! sample_path = None /\
  exists st',
    @serve plain_runtime sample_config (env_at 0) (get_request sample_id true)
      stray_record_store = (not_found true, st') /\
    metas st' !! Php.sanitize_id sample_id = None /\
    (forall p, (forall k m, metas stray_record_store !! k = Some (Some m) ->
                            m_path m <> Some p) ->
               objs st' !! p = objs stray_record_store !! p).
Proof.
  split; [reflexivity|]. split; [reflexivity|].
  apply (@partial_state_not_found plain_runtime sample_config (env_at 0)
           (get_request sample_id true) sample_id stray_record_store).
  - apply no_junk_stray_record.
  - reflexivity.
  - reflexivity.
  - reflexivity.
  - intros c Hc. simpl in Hc.
    apply lookup_singleton_Some in Hc as [_ <-]. reflexivity.
Defined.

(** The claim C8 has the stray half deleted at the next access also when
    the stray half is the bytes; the GET for their id answers 404 and the
    bytes are still there. *)
Lemma stray_bytes_survive_access :
  objs orphan_store !! sample_path = Some sample_bytes /\
  metas orphan_store !! sample_id = None /\
  @serve plain_runtime sample_config (env_at 0) (get_request sample_id false)
    orphan_store
  = (textResponse "File not found" 404, orphan_store) /\
  @serve plain_runtime sample_config (env_at 0) (get_request sample_id true)
    orphan_store
  = (jsonResponse (JsonFailure "File not found") 404, orphan_store).
Proof. repeat split; reflexivity. Qed.

(** C4, the failing run: the record expired one second before the
    request.  The sweep at the head of the run unlinks payload and record,
    the handler then finds no record and answers 404, for the download as
    for the info request; the answer is not 410. *)
Theorem expired_record_answers_404 :
  @serve plain_runtime sample_config (env_at 11000000)
    (get_request sample_id false) (sample_store 10)
  = (textResponse "File not found" 404,
     Store ∅ ∅ [UnlinkObj sample_path; UnlinkMeta sample_id]) /\
  @serve plain_runtime sample_config (env_at 11000000)
    (get_request sample_id true) (sample_store 10)
  = (jsonResponse (JsonFailure "File not found") 404,
     Store ∅ ∅ [UnlinkObj sample_path; UnlinkMeta sample_id]).
Proof. split; reflexivity. Qed.

(** The handler alone, entered with the expired record still in place,
    does answer 410 and unlinks the payload, then the record. *)
Example handler_alone_answers_410 :
  @handle_get plain_runtime (env_at 11000000) sample_id false (sample_store 10)
  = (textResponse "Link expired" 410,
     Store ∅ ∅ [UnlinkObj sample_path; UnlinkMeta sample_id]).
Proof. reflexivity. Qed.

Lemma get_id_stripped_witness :
  Php.sanitize_id "../-" = "" /\
  @serve plain_runtime sample_config (env_at 0) (get_request "../-" false)
    (sample_store 10)
  = (get_failure false 400 "Invalid file id" "Invalid download id",
     sample_store 10).
Proof.
  split; [reflexivity|].
  apply (@get_id_stripped plain_runtime sample_config (env_at 0)
           (get_request "../-" false) "../-" (sample_store 10) (sample_store 10));
    reflexivity.
Defined.

(** The claim C7 strips to the lower-case hexadecimal alphabet, which
    leaves nothing of the id [g] and makes the request a 400 without a
    look at the directory; the script keeps [g], finds [g.json], and
    unlinks it on the way to a 404. *)
Lemma get_keeps_non_hex_letters :
  Php.str_filter Php.is_lower_hex "g" = "" /\
  Php.sanitize_id "g" = "g" /\
  @serve plain_runtime sample_config (env_at 0) (get_request "g" false)
    garbled_store
  = (textResponse "File not found" 404, Store ∅ ∅ [UnlinkMeta "g"]).
Proof. repeat split; reflexivity. Qed.

(** ** Whole runs: POST *)

Lemma str_length_app a b :
  String.length (a +:+ b) = (String.length a + String.length b)%nat.
Proof. induction a as [|c a IH]; simpl; [reflexivity | now rewrite IH]. Qed.

Lemma targetPath_truthy cfg e u : Php.truthy (targetPath cfg e u) = true.
Proof.
  apply truthy_length. unfold targetPath, storedName.
  rewrite !str_length_app, new_id_length. simpl. lia.
Qed.

Lemma atom_second_add t n : atom_second (t + n * hour_usec) = atom_second t + n * 3600.
Proof.
  unfold atom_second, hour_usec.
  replace (t + n * (3600 * usec)) with (t + n * 3600 * usec) by ring.
  now rewrite Z.div_add by (unfold usec; lia).
Qed.

(** The part of C2 on the timestamps that holds: when both clock
    readings of the upload fall into the same second, the two stored
    times are the retention period apart; in general they are at most
    that far apart. *)
Lemma expiry_gap_same_second cfg e :
  atom_second (now_expiry e) = atom_second (now_upload e) ->
  expiresAt_of cfg e - atom_second (now_upload e) = expirationHours cfg * 3600.
Proof. unfold expiresAt_of. rewrite atom_second_add. lia. Qed.

Lemma expiry_gap_bound cfg e :
  now_expiry e <= now_upload e ->
  expiresAt_of cfg e - atom_second (now_upload e) <= expirationHours cfg * 3600.
Proof.
  intros Hle. unfold expiresAt_of. rewrite atom_second_add.
  assert (atom_second (now_expiry e) <= atom_second (now_upload e))
    by (apply Z.div_le_mono; [unfold usec; lia | exact Hle]).
  lia.
Qed.

Section ServePost.
Context `{Runtime}.
Variable cfg : config.

Lemma serve_post e r st st1 :
  method r = POST ->
  cleanupExpired (now_sweep e) st = Done st1 ->
  serve cfg e r st = handle_post cfg e r st1.
Proof. unfold serve. intros -> ->. now destruct (get_id r). Qed.

Lemma handle_post_ok e r u st :
  post_action r = Some "upload" -> post_file r = Some u ->
  up_error u = UPLOAD_ERR_OK -> up_size u <= maxSize cfg -> move_ok e = true ->
  handle_post cfg e r st =
  (jsonResponse
     (JsonUploaded (new_id e) (originalName u)
        (base_url e +:+ "?id=" +:+ new_id e)
        (DAtom (expiresAt_of cfg e)) (up_size u)) 200,
   put_meta (new_id e) (written_meta (upload_meta cfg e u))
     (move_upload (targetPath cfg e u) (up_bytes u) st)).
Proof.
  unfold handle_post. intros -> -> -> Hsz ->. simpl.
  destruct (Z.gtb_spec (up_size u) (maxSize cfg)); [lia | reflexivity].
Qed.

(** C6 as it holds, for a run whose sweep at the head of the request
    ran to its end: an upload run without a file field, or with an
    upload error reported by PHP, answers 400; a payload larger than the
    maximum answers 413; in these cases the handler writes nothing, the
    directory is as the sweep left it.  Every payload of at most the
    maximum size, one of exactly the maximum and the empty one included
    (the script has no test for an empty payload), is stored when the
    move succeeds and answered with 200: with the success payload when
    [json_encode] accepts the id, the kept name and the download URL,
    and with an empty body when it refuses one of them; the record holds
    what [json_encode] wrote, which is empty when it refused the name. *)
Theorem upload_size_gate (e : env) (r : request) (st st1 : store) :
  method r = POST -> post_action r = Some "upload" ->
  cleanupExpired (now_sweep e) st = Done st1 ->
  (post_file r = None ->
   serve cfg e r st = (jsonResponse (JsonFailure "Missing file payload") 400, st1)) /\
  (forall u, post_file r = Some u -> up_error u <> UPLOAD_ERR_OK ->
             exists msg, serve cfg e r st = (jsonResponse (JsonFailure msg) 400, st1)) /\
  (forall u, post_file r = Some u -> up_error u = UPLOAD_ERR_OK ->
             maxSize cfg < up_size u ->
             serve cfg e r st =
             (jsonResponse (JsonFailure "File exceeds maximum allowed size") 413, st1)) /\
  (forall u, post_file r = Some u -> up_error u = UPLOAD_ERR_OK ->
             up_size u <= maxSize cfg -> move_ok e = true ->
             exists st2,
               (serve cfg e r st).2 = st2 /\
               objs st2 !! targetPath cfg e u = Some (up_bytes u) /\
               metas st2 !! new_id e = Some (written_meta (upload_meta cfg e u)) /\
               on_wire (serve cfg e r st).1 =
               Sent (Response 200 (cors_headers ++ [json_header])
                       (if forallb json_encodable
                             [new_id e; originalName u;
                              base_url e +:+ "?id=" +:+ new_id e]
                        then JsonUploaded (new_id e) (originalName u)
                               (base_url e +:+ "?id=" +:+ new_id e)
                               (DAtom (expiresAt_of cfg e)) (up_size u)
                        else NoBody))).
Proof.
  intros Hpost Hact Hrun. rewrite (serve_post e r st st1 Hpost Hrun).
  split; [|split; [|split]].
  - unfold handle_post. rewrite Hact. now intros ->.
  - intros u Hu Herr. unfold handle_post. rewrite Hact, Hu. simpl.
    apply Z.eqb_neq in Herr. rewrite Herr. simpl. eauto.
  - intros u Hu Herr Hbig. unfold handle_post. rewrite Hact, Hu, Herr. simpl.
    destruct (Z.gtb_spec (up_size u) (maxSize cfg)); [reflexivity | lia].
  - intros u Hu Herr Hsz Hmv.
    rewrite (handle_post_ok e r u st1 Hact Hu Herr Hsz Hmv).
    eexists. split; [reflexivity|].
    split; [apply lookup_insert_eq|]. split; [apply lookup_insert_eq|].
    reflexivity.
Qed.

End ServePost.

Lemma upload_size_gate_witness :
  (exists st2,
     (@serve picky_runtime tiny_config (env_at 0)
        (post_request (Upfile "four.bin" 0 [x01; x02; x03; x04])) empty_store).2
     = st2 /\
     objs st2 !! "/var/www/uploads/0a1b2c3d4e5f__four.bin"
     = Some [x01; x02; x03; x04] /\
     metas st2 !! "0a1b2c3d4e5f"
     = Some (Some (Meta (Some "0a1b2c3d4e5f") (Some "four.bin")
                     (Some "0a1b2c3d4e5f__four.bin")
                     (Some "/var/www/uploads/0a1b2c3d4e5f__four.bin")
                     (Some 4) (Some (DAtom 172800)) (Some (DAtom 0)))) /\
     @on_wire picky_runtime
       (@serve picky_runtime tiny_config (env_at 0)
          (post_request (Upfile "four.bin" 0 [x01; x02; x03; x04]))
          empty_store).1
     = Sent (Response 200 (cors_headers ++ [json_header])
               (JsonUploaded "0a1b2c3d4e5f" "four.bin"
                  "http://localhost/fileShare.php?id=0a1b2c3d4e5f"
                  (DAtom 172800) 4))) /\
  (exists st2,
     (@serve picky_runtime tiny_config (env_at 0)
        (post_request latin1_upload) empty_store).2 = st2 /\
     objs st2 !! targetPath tiny_config (env_at 0) latin1_upload
     = Some sample_bytes /\
     metas st2 !! "0a1b2c3d4e5f" = Some None /\
     @on_wire picky_runtime
       (@serve picky_runtime tiny_config (env_at 0)
          (post_request latin1_upload) empty_store).1
     = Sent (Response 200 (cors_headers ++ [json_header]) NoBody)) /\
  @serve picky_runtime tiny_config (env_at 0)
    (post_request (Upfile "five.bin" 0 [x01; x02; x03; x04; x05])) empty_store
  = (jsonResponse (JsonFailure "File exceeds maximum allowed size") 413,
     empty_store).
Proof.
  split; [|split].
  - destruct (@upload_size_gate picky_runtime tiny_config (env_at 0)
                (post_request (Upfile "four.bin" 0 [x01; x02; x03; x04]))
                empty_store empty_store eq_refl eq_refl eq_refl)
      as (_ & _ & _ & Hok).
    apply (Hok _ eq_refl eq_refl); [vm_compute; discriminate | reflexivity].
  - destruct (@upload_size_gate picky_runtime tiny_config (env_at 0)
                (post_request latin1_upload)
                empty_store empty_store eq_refl eq_refl eq_refl)
      as (_ & _ & _ & Hok).
    apply (Hok _ eq_refl eq_refl); [vm_compute; discriminate | reflexivity].
  - destruct (@upload_size_gate picky_runtime tiny_config (env_at 0)
                (post_request (Upfile "five.bin" 0 [x01; x02; x03; x04; x05]))
                empty_store empty_store eq_refl eq_refl eq_refl)
      as (_ & _ & Hbig & _).
    apply (Hbig _ eq_refl eq_refl). reflexivity.
Defined.

(** The claim C6 has an empty payload refused with 400; the script
    stores it and answers 200. *)
Lemma empty_payload_is_stored :
  up_size (Upfile "empty.txt" 0 []) = 0 /\
  @serve plain_runtime sample_config (env_at 0)
    (post_request (Upfile "empty.txt" 0 [])) empty_store
  = (jsonResponse
       (JsonUploaded "0a1b2c3d4e5f" "empty.txt"
          "http://localhost/fileShare.php?id=0a1b2c3d4e5f" (DAtom 172800) 0)
       200,
     Store {[ "/var/www/uploads/0a1b2c3d4e5f__empty.txt" := [] ]}
       {[ "0a1b2c3d4e5f" :=
            Some (Meta (Some "0a1b2c3d4e5f") (Some "empty.txt")
                    (Some "0a1b2c3d4e5f__empty.txt")
                    (Some "/var/www/uploads/0a1b2c3d4e5f__empty.txt")
                    (Some 0) (Some (DAtom 172800)) (Some (DAtom 0))) ]}
       [MoveUpload "/var/www/uploads/0a1b2c3d4e5f__empty.txt";
        PutMeta "0a1b2c3d4e5f"]).
Proof. split; reflexivity. Qed.

(** ** Directories written by uploads *)

Section Roundtrip.
Context `{Runtime}.
Variable cfg : config.

Lemma written_meta_Some m m' : written_meta m = Some m' -> m' = m.
Proof. unfold written_meta. destruct (forallb _ _); congruence. Qed.

Lemma issued_record k m :
  issued cfg k (Some m) -> exists e u, new_id e = k /\ m = upload_meta cfg e u.
Proof.
  intros (e & u & Hk & Hm). exists e, u. split; [exact Hk|].
  symmetry in Hm. now apply written_meta_Some in Hm.
Qed.

Lemma wf_store_empty : wf_store cfg empty_store.
Proof. intros k c Hk. simpl in Hk. now rewrite lookup_empty in Hk. Qed.

Lemma wf_no_junk st : wf_store cfg st -> no_junk st.
Proof.
  intros Hwf k m Hk. destruct (issued_record k m (Hwf _ _ Hk)) as (e & u & _ & ->).
  discriminate.
Qed.

Lemma wf_shrinks P now st st' :
  shrinks P now st st' -> wf_store cfg st -> wf_store cfg st'.
Proof.
  intros [Hm _] Hwf k c Hk. destruct (Hm k) as [E|[E _]]; rewrite E in Hk;
    [eauto | discriminate].
Qed.

Lemma wf_upload e u p b st :
  wf_store cfg st ->
  wf_store cfg
    (put_meta (new_id e) (written_meta (upload_meta cfg e u)) (move_upload p b st)).
Proof.
  intros Hwf k c. simpl. rewrite lookup_insert.
  destruct (decide (new_id e = k)) as [<-|Hne].
  - intros [= <-]. now exists e, u.
  - apply Hwf.
Qed.

Lemma handle_get_metas e raw info st k :
  metas (handle_get e raw info st).2 !! k = metas st !! k \/
  metas (handle_get e raw info st).2 !! k = None.
Proof.
  destruct (decide (Php.sanitize_id raw = k)) as [<-|Hne];
    [|left; now apply handle_get_metas_other].
  unfold handle_get.
  destruct (Php.truthy (Php.sanitize_id raw)); [|now left]. simpl.
  destruct (metas st !! Php.sanitize_id raw) as [c|] eqn:Hc; [|now left].
  destruct (usable c st) as [[m p]|]; [|right; simpl; apply lookup_delete_eq].
  destruct (m_expiresAt m) as [d|]; [|now left].
  destruct (parse_date (now_blank e) d) as [x|]; [|now left].
  destruct (x <? now_check e); [right; simpl; apply lookup_delete_eq|].
  destruct info; now left.
Qed.

Lemma handle_post_metas e r st k :
  metas (handle_post cfg e r st).2 !! k = metas st !! k \/
  (k = new_id e /\ exists u,
     metas (handle_post cfg e r st).2 !! k =
     Some (written_meta (upload_meta cfg e u))).
Proof.
  unfold handle_post.
  destruct (negb _); [now left|].
  destruct (post_file r) as [u|]; [|now left].
  destruct (negb _); [now left|].
  destruct (up_size u >? maxSize cfg); [now left|].
  destruct (negb _); [now left|]. simpl.
  destruct (decide (new_id e = k)) as [<-|Hne].
  - right. split; [reflexivity|]. exists u. apply lookup_insert_eq.
  - left. now apply lookup_insert_ne.
Qed.

(** The part of C2 on later operations that holds: a run of the script
    leaves a record as it is, or removes it, or it is the run of an
    upload that drew the very id of the record and writes a new one;
    no run changes the [expiresAt] of a record it keeps. *)
Lemma serve_metas e r st k :
  metas (serve cfg e r st).2 !! k = metas st !! k \/
  metas (serve cfg e r st).2 !! k = None \/
  (method r = POST /\ k = new_id e).
Proof.
  unfold serve.
  pose proof (cleanupExpired_shrinks (now_sweep e) st) as [Hm _].
  assert (Hsw : metas (final (cleanupExpired (now_sweep e) st)) !! k = metas st !! k \/
                metas (final (cleanupExpired (now_sweep e) st)) !! k = None)
    by (destruct (Hm k) as [E|[E _]]; auto).
  destruct (method r) eqn:Hv; [now left| | |];
    destruct (cleanupExpired (now_sweep e) st) as [st1|st1]; simpl in *;
    try (destruct Hsw as [<-|E]; [now left | right; now left]).
  - destruct (get_id r) as [raw|]; simpl; [|tauto].
    destruct (handle_get_metas e raw (get_info r) st1 k) as [->| ->]; tauto.
  - destruct (handle_post_metas e r st1 k) as [->|[-> _]]; tauto.
Qed.

Lemma serve_wf e r st : wf_store cfg st -> wf_store cfg (serve cfg e r st).2.
Proof.
  intros Hwf k c Hk.
  destruct (serve_metas e r st k) as [E|[E|[Hpost ->]]].
  - rewrite E in Hk. eauto.
  - rewrite E in Hk. discriminate.
  - pose proof (cleanupExpired_shrinks (now_sweep e) st) as Hsh.
    unfold serve in Hk. rewrite Hpost in Hk.
    destruct (cleanupExpired (now_sweep e) st) as [st1|st1]; simpl in *.
    + assert (Hk' : metas (handle_post cfg e r st1).2 !! new_id e = Some c)
        by (destruct (get_id r); exact Hk).
      destruct (handle_post_metas e r st1 (new_id e)) as [E|[_ [u E]]];
        rewrite E in Hk'.
      * eapply wf_shrinks; eauto.
      * injection Hk' as <-. now exists e, u.
    + eapply wf_shrinks; eauto.
Qed.

(** The round trip where it holds (C1 for every name that PHP does not
    take for empty): into a directory written by uploads only, an upload
    that the script accepts and whose record [json_encode] could write is
    answered with its id; a download run for that id, made before the
    clock passes the stored second of expiry, answers 200 with exactly
    the uploaded bytes, their number as content length, and, in the
    disposition and in the [X-Fileshare-Filename] header, the name the
    script kept as original: the submitted name when that is not empty
    (and not the text 0), never the stored name; for an empty submitted
    name it is the fallback [fileshare.bin]. *)
Theorem download_returns_upload
    (e1 e2 : env) (r1 r2 : request) (u : upfile) (st0 : store) :
  wf_store cfg st0 ->
  method r1 = POST -> post_action r1 = Some "upload" -> post_file r1 = Some u ->
  up_error u = UPLOAD_ERR_OK -> up_size u <= maxSize cfg -> move_ok e1 = true ->
  written_meta (upload_meta cfg e1 u) = Some (upload_meta cfg e1 u) ->
  method r2 = GET -> get_id r2 = Some (new_id e1) -> get_info r2 = false ->
  now_sweep e2 <= now_check e2 ->
  now_check e2 <= expiresAt_of cfg e1 * usec ->
  (exists url st1 st2,
     serve cfg e1 r1 st0 =
     (jsonResponse
        (JsonUploaded (new_id e1) (originalName u) url
           (DAtom (expiresAt_of cfg e1)) (up_size u)) 200, st1) /\
     serve cfg e2 r2 st1 =
     (Sent (Response 200
              (cors_headers ++
               [ "Content-Type: application/octet-stream";
                 "Content-Length: " +:+ int_string (up_size u);
                 "Content-Disposition: attachment; filename="
                   +:+ dquote +:+ originalName u +:+ dquote;
                 "X-Fileshare-Filename: " +:+ originalName u ])
              (FileContent (up_bytes u))), st2)) /\
  (up_name u <> "" -> up_name u <> "0" -> originalName u = up_name u) /\
  (up_name u = "" -> originalName u = "fileshare.bin").
Proof.
  intros Hwf Hpost Hact Hfile Herr Hsz Hmv Henc Hget Hid Hinfo Hclk Hlive.
  split.
  2:{ unfold originalName, Php.elvis, Php.truthy. split.
      - intros H1 H2. apply String.eqb_neq in H1, H2. now rewrite H1, H2.
      - now intros ->. }
  (* the upload run *)
  pose proof (cleanupExpired_shrinks (now_sweep e1) st0) as Hsh0.
  destruct (sweep_loop_done_ex (now_sweep e1) (glob_json st0) st0 (wf_no_junk _ Hwf))
    as [st0' Hrun0].
  rewrite <- cleanupExpired_loop in Hrun0. rewrite Hrun0 in Hsh0. simpl in Hsh0.
  assert (Hwf0' : wf_store cfg st0') by (eapply wf_shrinks; eauto).
  set (tp := targetPath cfg e1 u).
  set (m := upload_meta cfg e1 u) in *.
  set (st1 := put_meta (new_id e1) (written_meta m) (move_upload tp (up_bytes u) st0')).
  assert (Hup : serve cfg e1 r1 st0 =
                (jsonResponse
                   (JsonUploaded (new_id e1) (originalName u)
                      (base_url e1 +:+ "?id=" +:+ new_id e1)
                      (DAtom (expiresAt_of cfg e1)) (up_size u)) 200, st1)).
  { rewrite (serve_post cfg e1 r1 st0 st0' Hpost Hrun0).
    now rewrite (handle_post_ok cfg e1 r1 u st0' Hact Hfile Herr Hsz Hmv). }
  assert (Hwf1 : wf_store cfg st1) by now apply wf_upload.
  assert (Hm1 : metas st1 !! new_id e1 = Some (Some m))
    by (simpl; rewrite Henc; apply lookup_insert_eq).
  assert (Ho1 : objs st1 !! tp = Some (up_bytes u)) by apply lookup_insert_eq.
  (* the sweep of the download run *)
  pose proof (cleanupExpired_shrinks (now_sweep e2) st1) as Hsh1.
  destruct (sweep_loop_done_ex (now_sweep e2) (glob_json st1) st1 (wf_no_junk _ Hwf1))
    as [st2 Hrun1].
  rewrite <- cleanupExpired_loop in Hrun1. rewrite Hrun1 in Hsh1. simpl in Hsh1.
  destruct Hsh1 as [Hms Hos].
  assert (Hfresh : expirable (now_sweep e2) (Some (Some m)) = false)
    by (simpl; apply Z.ltb_ge; lia).
  assert (Hm2 : metas st2 !! new_id e1 = Some (Some m)).
  { destruct (Hms (new_id e1)) as [E|(_ & _ & Hx)]; [congruence|].
    rewrite Hm1, Hfresh in Hx. discriminate. }
  assert (Ho2 : objs st2 !! tp = Some (up_bytes u)).
  { destruct (Hos tp) as [E|(_ & k & m' & _ & Hk & Hx & Hp)]; [congruence|].
    exfalso. destruct (issued_record k m' (Hwf1 _ _ Hk)) as (e' & u' & <- & ->).
    simpl in Hp. injection Hp as Hp. apply targetPath_inj in Hp.
    rewrite Hp, Hm1, Hfresh in Hx. discriminate. }
  (* the handler of the download run *)
  exists (base_url e1 +:+ "?id=" +:+ new_id e1), st1, st2.
  split; [exact Hup|].
  rewrite (serve_get cfg e2 r2 (new_id e1) st1 st2 Hget Hid Hrun1), Hinfo.
  assert (Hs : Php.sanitize_id (new_id e1) = new_id e1) by apply new_id_sanitized.
  rewrite (handle_get_live e2 (new_id e1) st2 m tp (expiresAt_of cfg e1));
    rewrite ?Hs; try assumption.
  - unfold download_of. rewrite Ho2. subst m. reflexivity.
  - apply new_id_truthy.
  - unfold usable, file_exists. subst m. simpl. fold tp.
    unfold tp at 1. now rewrite targetPath_truthy, Ho2.
  - reflexivity.
Qed.

End Roundtrip.

Lemma download_returns_upload_witness :
  exists url st1 st2,
    @serve plain_runtime sample_config (env_at 0) (post_request report_upload)
      empty_store =
    (jsonResponse (JsonUploaded sample_id "report.pdf" url (DAtom 172800) 3) 200,
     st1) /\
    @serve plain_runtime sample_config (env_at 172800000000)
      (get_request sample_id false) st1 =
    (Sent (Response 200
             (cors_headers ++
              [ "Content-Type: application/octet-stream";
                "Content-Length: 3";
                "Content-Disposition: attachment; filename="
                  +:+ dquote +:+ "report.pdf" +:+ dquote;
                "X-Fileshare-Filename: report.pdf" ])
             (FileContent sample_bytes)), st2).
Proof.
  apply (@download_returns_upload plain_runtime sample_config
           (env_at 0) (env_at 172800000000)
           (post_request report_upload) (get_request sample_id false)
           report_upload empty_store);
    try reflexivity.
  - apply wf_store_empty.
  - vm_compute. discriminate.
Defined.

(** C1, the failing run: a file whose name is the one character 0 is
    uploaded with no error and accepted; line 151 takes that name for an
    empty one, so the record keeps [fileshare.bin] as the original name.
    The download of the issued id, one second later, returns the
    uploaded bytes, but names them [fileshare.bin] in the disposition
    and in [X-Fileshare-Filename], not 0 as submitted. *)
Theorem zero_named_upload_is_renamed :
  up_name zero_upload = "0" /\
  up_error zero_upload = UPLOAD_ERR_OK /\
  (@serve plain_runtime sample_config (env_at 0)
     (post_request zero_upload) empty_store).1
  = jsonResponse
      (JsonUploaded sample_id "fileshare.bin"
         "http://localhost/fileShare.php?id=0a1b2c3d4e5f" (DAtom 172800) 3) 200 /\
  (@serve plain_runtime sample_config (env_at 1000000)
     (get_request sample_id false)
     (@serve plain_runtime sample_config (env_at 0)
        (post_request zero_upload) empty_store).2).1
  = Sent (Response 200
            (cors_headers ++
             [ "Content-Type: application/octet-stream";
               "Content-Length: 3";
               "Content-Disposition: attachment; filename="
                 +:+ dquote +:+ "fileshare.bin" +:+ dquote;
               "X-Fileshare-Filename: fileshare.bin" ])
            (FileContent (up_bytes zero_upload))).
Proof. repeat split; reflexivity. Qed.

(** C2, the failing run: the reading for [expiresAt] is taken in second
    0, the reading for [uploadedAt] one microsecond later in second 1.
    The size is the number of bytes, in the record and in both answers,
    but the stored times are 172799 seconds apart, one short of 48
    hours, and the info request right after the upload reports them
    so. *)
Theorem upload_clock_drift :
  now_expiry drift_env <= now_upload drift_env /\
  @serve plain_runtime sample_config drift_env (post_request report_upload)
    empty_store
  = (jsonResponse
       (JsonUploaded sample_id "report.pdf"
          "http://localhost/fileShare.php?id=0a1b2c3d4e5f" (DAtom 172800) 3)
       200,
     Store {[ sample_path := sample_bytes ]}
       {[ sample_id :=
            Some (Meta (Some sample_id) (Some "report.pdf")
                    (Some "0a1b2c3d4e5f__report.pdf") (Some sample_path)
                    (Some 3) (Some (DAtom 172800)) (Some (DAtom 1))) ]}
       [MoveUpload sample_path; PutMeta sample_id]) /\
  (@serve plain_runtime sample_config (env_at 1000001)
     (get_request sample_id true)
     (@serve plain_runtime sample_config drift_env (post_request report_upload)
        empty_store).2).1
  = jsonResponse
      (JsonInfo (FileInfo sample_id "report.pdf" 3 (DAtom 172800) (DAtom 1)
                   false None)) 200 /\
  172800 - 1 = expirationHours sample_config * 3600 - 1.
Proof. repeat split; try reflexivity. vm_compute. discriminate. Qed.

(** * Further properties *)

(** ** Names, ids and the archive test *)

Lemma str_map_length f s : String.length (Php.str_map f s) = String.length s.
Proof. induction s as [|c s IH]; simpl; [reflexivity | now rewrite IH]. Qed.

Lemma sanitize_char_zero c :
  Ascii.eqb (if Php.is_safe c then c else "_"%char) "0" = Ascii.eqb c "0".
Proof.
  destruct (Php.is_safe c) eqn:Hc; [reflexivity|].
  destruct (Ascii.eqb_spec c "0") as [->|]; [discriminate | reflexivity].
Qed.

Lemma sanitize_name_truthy s : Php.truthy (Php.sanitize_name s) = Php.truthy s.
Proof.
  destruct s as [|c [|d r]]; [reflexivity | |].
  - unfold Php.truthy, Php.sanitize_name. simpl.
    now rewrite sanitize_char_zero.
  - rewrite !truthy_length; [reflexivity | simpl; lia |].
    unfold Php.sanitize_name. rewrite str_map_length. simpl. lia.
Qed.

Lemma originalName_truthy u : Php.truthy (originalName u) = true.
Proof.
  unfold originalName, Php.elvis.
  destruct (Php.truthy (up_name u)) eqn:Hn; [exact Hn | reflexivity].
Qed.

Lemma storedName_plain e u :
  storedName e u = new_id e +:+ "__" +:+ Php.sanitize_name (originalName u).
Proof.
  unfold storedName, Php.elvis.
  now rewrite sanitize_name_truthy, originalName_truthy.
Qed.

(** X12: the stored name is always the id, two underscores and the
    sanitised form of the name kept as original: the second fallback of
    line 154 never applies, because sanitising keeps the length of a name
    and cannot make it empty or the text 0.  A name made of characters of
    [A-Za-z0-9_.-] only, other than the text 0, is stored under itself. *)
Theorem stored_name_keeps_name (e : env) (u : upfile) :
  storedName e u = new_id e +:+ "__" +:+ Php.sanitize_name (originalName u) /\
  String.length (storedName e u) = (14 + String.length (originalName u))%nat /\
  (Php.str_forall Php.is_safe (up_name u) = true ->
   Php.truthy (up_name u) = true ->
   storedName e u = new_id e +:+ "__" +:+ up_name u).
Proof.
  split; [apply storedName_plain|]. split.
  - rewrite storedName_plain, !str_length_app, new_id_length.
    unfold Php.sanitize_name. now rewrite str_map_length.
  - intros Hsafe Ht. rewrite storedName_plain.
    unfold originalName, Php.elvis. rewrite Ht. f_equal. f_equal.
    unfold Php.sanitize_name. clear Ht.
    induction (up_name u) as [|c s IH]; [reflexivity|].
    simpl in *. apply andb_true_iff in Hsafe as [-> Hs]. now rewrite IH.
Qed.

Lemma str_app_assoc (a b c : string) : (a +:+ b) +:+ c = a +:+ (b +:+ c).
Proof.
  induction a as [|x a IH]; [reflexivity|].
  change (String x ((a +:+ b) +:+ c) = String x (a +:+ (b +:+ c))).
  now rewrite IH.
Qed.

Lemma rtrim_slash_fixed s :
  str_contains "/" s = false -> Php.rtrim_slash s = s.
Proof.
  induction s as [|c s IH]; simpl; [reflexivity|].
  rewrite orb_false_iff. intros [-> Hs]. simpl. now rewrite IH.
Qed.

Lemma rtrim_slash_app a s :
  str_contains "/" s = false -> s <> "" -> Php.rtrim_slash (a +:+ s) = a +:+ s.
Proof.
  intros Hs Hne. induction a as [|c a IH]; simpl; [now apply rtrim_slash_fixed|].
  rewrite IH.
  destruct (a +:+ s) eqn:E.
  - destruct a as [|c' a'];
      [change (s = "") in E; contradiction
      |change (String c' (a' +:+ s) = "") in E; discriminate].
  - change (String c a +:+ s) with (String c (a +:+ s)). rewrite E.
    simpl. now rewrite andb_false_r.
Qed.

Lemma after_last_skip sep a b :
  str_contains sep a = false ->
  Php.after_last sep (a +:+ b) = Php.after_last sep b.
Proof.
  induction a as [|c a IH]; simpl; [reflexivity|].
  rewrite orb_false_iff. intros [Hc Ha]. rewrite (IH Ha), Hc.
  now destruct (Php.after_last sep b).
Qed.

Lemma sanitize_char_dot c :
  Ascii.eqb (if Php.is_safe c then c else "_"%char) "." = Ascii.eqb c ".".
Proof.
  destruct (Php.is_safe c) eqn:Hc; [reflexivity|].
  destruct (Ascii.eqb_spec c ".") as [->|]; [discriminate | reflexivity].
Qed.

Lemma after_last_dot_sanitize s :
  Php.after_last "." (Php.sanitize_name s)
  = Php.sanitize_name <$> Php.after_last "." s.
Proof.
  unfold Php.sanitize_name.
  induction s as [|c s IH]; simpl; [reflexivity|].
  rewrite IH, sanitize_char_dot.
  destruct (Php.after_last "." s); simpl; [reflexivity|].
  now destruct (Ascii.eqb c ".").
Qed.

Lemma lower_safe c : Php.is_lower c = true -> Php.is_safe c = true.
Proof. unfold Php.is_safe, Php.is_alnum. now intros ->. Qed.

Lemma upper_safe c : Php.is_upper c = true -> Php.is_safe c = true.
Proof.
  unfold Php.is_safe, Php.is_alnum. intros ->. now rewrite orb_true_r.
Qed.

(** Lower-casing and comparing with a lower-case letter does not see the
    replacement of an unsafe character by an underscore. *)
Lemma to_lower_sanitize_char c d :
  Php.is_lower d = true ->
  Ascii.eqb (Php.to_lower (if Php.is_safe c then c else "_"%char)) d
  = Ascii.eqb (Php.to_lower c) d.
Proof.
  intros Hd. destruct (Php.is_safe c) eqn:Hc; [reflexivity|].
  assert (Hup : Php.is_upper c = false).
  { destruct (Php.is_upper c) eqn:E; [|reflexivity].
    apply upper_safe in E. congruence. }
  unfold Php.to_lower at 2. rewrite Hup.
  destruct (Ascii.eqb_spec c d) as [->|_].
  - apply lower_safe in Hd. congruence.
  - destruct (Ascii.eqb_spec (Php.to_lower "_") d) as [<-|]; [|reflexivity].
    vm_compute in Hd. discriminate.
Qed.

Lemma strtolower_sanitize_eqb s t :
  Php.str_forall Php.is_lower t = true ->
  String.eqb (Php.strtolower (Php.sanitize_name s)) t
  = String.eqb (Php.strtolower s) t.
Proof.
  unfold Php.strtolower, Php.sanitize_name.
  revert t. induction s as [|c s IH]; intros t Ht; [reflexivity|].
  destruct t as [|d t]; [reflexivity|].
  simpl in Ht. apply andb_true_iff in Ht as [Hd Ht].
  cbn [Php.str_map String.eqb].
  now rewrite to_lower_sanitize_char, IH.
Qed.

Lemma zip_named_sanitize s : zip_named (Php.sanitize_name s) = zip_named s.
Proof.
  unfold zip_named. rewrite after_last_dot_sanitize.
  destruct (Php.after_last "." s); simpl; [|reflexivity].
  now apply strtolower_sanitize_eqb.
Qed.

Lemma new_id_no_dot e : str_contains "." (new_id e +:+ "__") = false.
Proof.
  assert (Hhex : forall s, Php.str_forall Php.is_lower_hex s = true ->
                           str_contains "." (s +:+ "__") = false).
  { induction s as [|c s IH]; simpl; [reflexivity|].
    rewrite andb_true_iff. intros [Hc Hs]. rewrite (IH Hs), orb_false_r.
    destruct (Ascii.eqb_spec c ".") as [->|]; [discriminate | reflexivity]. }
  apply Hhex, new_id_hex.
Qed.

Lemma storedName_no_slash e u : str_contains "/" (storedName e u) = false.
Proof. apply safe_no_slash, storedName_safe. Qed.

Lemma storedName_nonempty e u : storedName e u <> "".
Proof.
  intros E. apply (f_equal String.length) in E.
  unfold storedName in E. rewrite !str_length_app, new_id_length in E.
  discriminate.
Qed.

Lemma storedName_truthy e u : Php.truthy (storedName e u) = true.
Proof.
  apply truthy_length. unfold storedName.
  rewrite !str_length_app, new_id_length. lia.
Qed.

Lemma extension_storedName e u :
  String.eqb (Php.strtolower (Php.extension (storedName e u))) "zip"
  = zip_named (originalName u).
Proof.
  unfold Php.extension, Php.basename.
  rewrite rtrim_slash_fixed by apply storedName_no_slash.
  rewrite (after_last_absent "/") by apply storedName_no_slash.
  rewrite storedName_plain.
  replace (new_id e +:+ "__" +:+ Php.sanitize_name (originalName u))
    with ((new_id e +:+ "__") +:+ Php.sanitize_name (originalName u))
    by apply str_app_assoc.
  rewrite after_last_skip by apply new_id_no_dot.
  rewrite <- zip_named_sanitize. unfold zip_named.
  now destruct (Php.after_last "." (Php.sanitize_name (originalName u))).
Qed.

Lemma isZipFile_storedName e u :
  isZipFile (storedName e u) = zip_named (originalName u).
Proof.
  unfold isZipFile. rewrite storedName_truthy. apply extension_storedName.
Qed.

Lemma basename_targetPath cfg e u :
  Php.basename (targetPath cfg e u) = storedName e u.
Proof.
  unfold Php.basename.
  assert (Hr : Php.rtrim_slash (targetPath cfg e u) = targetPath cfg e u).
  { unfold targetPath. rewrite <- (str_app_assoc _ "/" (storedName e u)).
    apply rtrim_slash_app; [apply storedName_no_slash | apply storedName_nonempty]. }
  assert (Ha : Php.after_last "/" (targetPath cfg e u) = Some (storedName e u))
    by (unfold targetPath; apply after_last_app, storedName_no_slash).
  now rewrite Hr, Ha.
Qed.

Lemma isZipFile_targetPath cfg e u :
  isZipFile (targetPath cfg e u) = zip_named (originalName u).
Proof.
  unfold isZipFile. rewrite targetPath_truthy.
  unfold Php.extension. rewrite basename_targetPath.
  pose proof (extension_storedName e u) as Hx.
  unfold Php.extension, Php.basename in Hx.
  rewrite rtrim_slash_fixed in Hx by apply storedName_no_slash.
  now rewrite (after_last_absent "/") in Hx by apply storedName_no_slash.
Qed.

(** X2: whether the info request calls an upload an archive is decided
    by the name kept as original alone: both tests of line 241, on the
    path and on the stored name, hold exactly when the text after the
    last dot of that name is zip in any case; the upload directory, the
    id and the replacement of unsafe characters have no say. *)
Theorem archive_test_reads_original_name (cfg : config) (e : env) (u : upfile) :
  isZipFile (targetPath cfg e u) = zip_named (originalName u) /\
  isZipFile (storedName e u) = zip_named (originalName u).
Proof. split; [apply isZipFile_targetPath | apply isZipFile_storedName]. Qed.

Lemma zip_named_suffix a : zip_named (a +:+ ".zip") = true.
Proof.
  unfold zip_named.
  change (a +:+ ".zip") with (a +:+ String "." "zip").
  now rewrite after_last_app.
Qed.

(** X3: the archive that [uploadFolder] sends is always taken for an
    archive by the server, whatever the folder is called.  The name it is
    sent under is a non-empty stem (the label, or [folder] when the label
    is missing or empty) followed by [.zip], and the server takes every
    upload whose name ends in [.zip] for an archive, on the path and on
    the stored name, whatever stands before the suffix. *)
Theorem folder_upload_is_archive
    (cfg : config) (e : env) (label : option string)
    (stem : string) (err : Z) (b : list byte) :
  Js.or_else label "folder" <> "" /\
  folder_upload_name label = Js.or_else label "folder" +:+ ".zip" /\
  isZipFile (targetPath cfg e (Upfile (stem +:+ ".zip") err b)) = true /\
  isZipFile (storedName e (Upfile (stem +:+ ".zip") err b)) = true /\
  isZipFile (targetPath cfg e (Upfile (folder_upload_name label) err b)) = true.
Proof.
  assert (Ho : forall a, originalName (Upfile (a +:+ ".zip") err b) = a +:+ ".zip").
  { intros a. unfold originalName, Php.elvis. simpl.
    rewrite truthy_length; [reflexivity|].
    rewrite str_length_app. simpl. lia. }
  split; [destruct label as [[|c l]|]; discriminate|].
  split; [reflexivity|].
  unfold folder_upload_name.
  rewrite !isZipFile_targetPath, isZipFile_storedName, !Ho.
  now rewrite !zip_named_suffix.
Qed.

Section IdFacts.
Context `{Runtime}.

(** X7: the id an upload returns is twelve lower-case hexadecimal
    digits; the id filter of the GET handler leaves it as it is, so a
    request with that id is never answered with 400, and different random
    draws give different ids. *)
Theorem issued_id_passes_filter (e e' : env) (info : bool) (st : store) :
  String.length (new_id e) = 12%nat /\
  Php.str_forall Php.is_lower_hex (new_id e) = true /\
  Php.sanitize_id (new_id e) = new_id e /\
  (forall resp, (handle_get e' (new_id e) info st).1 = Sent resp ->
                status resp <> 400) /\
  (new_id e = new_id e' -> random6 e = random6 e').
Proof.
  split; [apply new_id_length|]. split; [apply new_id_hex|].
  split; [apply new_id_sanitized|]. split; [|apply new_id_inj].
  intros resp. unfold handle_get.
  rewrite new_id_sanitized, new_id_truthy. simpl.
  destruct (metas st !! new_id e) as [c|];
    [|destruct info; intros [= <-]; discriminate].
  destruct (usable c st) as [[m p]|];
    [|destruct info; intros [= <-]; discriminate].
  destruct (m_expiresAt m) as [d|]; [|discriminate].
  destruct (parse_date (now_blank e') d) as [x|]; [|discriminate].
  destruct (x <? now_check e'); destruct info; intros [= <-]; discriminate.
Qed.

End IdFacts.

(** ** The endpoint address of the caller *)

Lemma ends_with_app suf a : Js.ends_with suf (a +:+ suf) = true.
Proof.
  induction a as [|c a IH].
  - change ("" +:+ suf) with suf.
    destruct suf; cbn [Js.ends_with]; now rewrite String.eqb_refl.
  - change (String c a +:+ suf) with (String c (a +:+ suf)).
    cbn [Js.ends_with]. rewrite IH. now destruct (String.eqb _ _).
Qed.

Lemma drop_last_slash_app b : Js.drop_last_slash (b +:+ "/") = b.
Proof.
  induction b as [|c b IH]; [reflexivity|].
  change (String c b +:+ "/") with (String c (b +:+ "/")).
  cbn [Js.drop_last_slash]. rewrite IH.
  destruct (b +:+ "/") eqn:E.
  - destruct b; discriminate E.
  - now rewrite andb_false_r.
Qed.

Lemma ends_with_slash_not_php b : Js.ends_with ".php" (b +:+ "/") = false.
Proof.
  induction b as [|c b IH]; [reflexivity|].
  change (String c b +:+ "/") with (String c (b +:+ "/")).
  cbn [Js.ends_with]. rewrite IH.
  destruct (String.eqb_spec (String c (b +:+ "/")) ".php") as [E|]; [|reflexivity].
  exfalso. clear IH.
  destruct b as [|c1 [|c2 [|c3 [|c4 b]]]]; discriminate E.
Qed.

(** X13: the address the caller sends its requests to always ends in
    [.php]; computing it from its own result changes nothing; and a base
    address with a slash at its end gets the script name after that one
    slash, not after two. *)
Theorem endpoint_ends_in_php (raw : string) :
  Js.ends_with ".php" (getEndpoint raw) = true /\
  getEndpoint (getEndpoint raw) = getEndpoint raw /\
  getEndpoint (raw +:+ "/") = raw +:+ "/fileShare.php".
Proof.
  assert (He : Js.ends_with ".php" (getEndpoint raw) = true).
  { unfold getEndpoint. destruct (Js.ends_with ".php" raw) eqn:E; [exact E|].
    change "/fileShare.php" with ("/fileShare" +:+ ".php").
    rewrite <- str_app_assoc. apply ends_with_app. }
  split; [exact He|]. split.
  - unfold getEndpoint at 1. now rewrite He.
  - unfold getEndpoint.
    now rewrite ends_with_slash_not_php, drop_last_slash_app.
Qed.

(** ** The sweep, once more *)

Lemma expirable_mono now now' c :
  now' <= now -> expirable now' c = true -> expirable now c = true.
Proof.
  intros Hle. destruct c as [[m|]|]; simpl; try discriminate.
  destruct (m_expiresAt m) as [[s| |]|]; try discriminate.
  rewrite !Z.ltb_lt. lia.
Qed.

Lemma sweep_loop_noop now ks st :
  no_junk st ->
  (forall k, k ∈ ks -> expirable now (metas st !! k) = false) ->
  sweep_loop now ks st = Done st.
Proof.
  intros Hj. induction ks as [|k ks IH]; intros Hno; [reflexivity|].
  simpl. destruct (sweep_file_done now k st Hj) as [st1 Hst1].
  destruct (sweep_file_cases now k st) as [[_ Hf]|(m & _ & Hx & _)].
  - rewrite Hst1 in Hf. simpl in Hf. subst st1. rewrite Hst1.
    apply IH. intros k' Hk'. apply Hno. now apply list_elem_of_further.
  - rewrite Hno in Hx by apply list_elem_of_here. discriminate.
Qed.

(** X4: the sweep is idempotent.  When no record carries a rejected date
    text, a sweep runs to its end, and a second sweep at the same clock
    reading, or at an earlier one, makes no call and leaves the
    directory, journal included, exactly as the first one left it. *)
Theorem sweep_twice_is_sweep_once (now : Z) (st : store) :
  no_junk st ->
  exists st',
    cleanupExpired now st = Done st' /\
    forall now', now' <= now -> cleanupExpired now' st' = Done st'.
Proof.
  intros Hj.
  destruct (sweep_loop_done_ex now (glob_json st) st Hj) as [st' Hrun].
  pose proof (cleanupExpired_shrinks now st) as Hsh.
  rewrite cleanupExpired_loop, Hrun in Hsh. simpl in Hsh.
  exists st'. split; [now rewrite cleanupExpired_loop|].
  intros now' Hle. rewrite cleanupExpired_loop.
  apply sweep_loop_noop; [eapply shrinks_no_junk; eauto|].
  intros k [Hv [c Hc]]%elem_of_glob.
  destruct (expirable now' (metas st' !! k)) eqn:Hx; [|reflexivity].
  exfalso. apply (expirable_mono now) in Hx; [|exact Hle].
  destruct Hsh as [Hm _].
  destruct (Hm k) as [E|[E _]]; [|congruence].
  rewrite E in Hx, Hc.
  assert (Hin : k ∈ glob_json st) by (apply elem_of_glob; eauto).
  destruct (metas st !! k) as [[m|]|] eqn:Hk; try discriminate.
  destruct (sweep_loop_removes now (glob_json st) st st' k m Hrun Hin Hk) as [Hgone _];
    [now rewrite Hk|].
  congruence.
Qed.

Lemma sweep_twice_is_sweep_once_witness :
  exists st',
    cleanupExpired 10000001 (sample_store 10) = Done st' /\
    forall now', now' <= 10000001 -> cleanupExpired now' st' = Done st'.
Proof.
  apply (sweep_twice_is_sweep_once 10000001 (sample_store 10)), no_junk_sample.
Defined.

(** ** What every run does, and what it never does *)

Section RunFacts.
Context `{Runtime}.
Variable cfg : config.

Lemma usable_exists c st m p :
  usable c st = Some (m, p) ->
  c = Some m /\ m_path m = Some p /\ exists b, objs st !! p = Some b.
Proof.
  unfold usable, file_exists. destruct c as [m'|]; [|discriminate].
  destruct (m_path m') as [p'|] eqn:Hp; [|discriminate].
  destruct (Php.truthy p'); [|discriminate]. simpl.
  destruct (objs st !! p') as [b|] eqn:Hb; [|discriminate].
  intros [= <- <-]. eauto.
Qed.

Lemma handle_post_shaped e r st :
  match (handle_post cfg e r st).1 with
  | Sent resp => well_shaped resp = true /\
                 take 4 (headers resp) = cors_headers /\
                 is_json (content resp) = true
  | Crashed => False
  end.
Proof.
  unfold handle_post.
  destruct (negb _); [repeat split|].
  destruct (post_file r) as [u|]; [|repeat split].
  destruct (negb _); [repeat split|].
  destruct (up_size u >? maxSize cfg); [repeat split|].
  destruct (negb _); repeat split.
Qed.

Lemma handle_get_shaped e raw info st :
  match (handle_get e raw info st).1 with
  | Sent resp => well_shaped resp = true /\
                 take 4 (headers resp) = cors_headers /\
                 (info = true -> is_json (content resp) = true)
  | Crashed => True
  end.
Proof.
  unfold handle_get.
  destruct (Php.truthy (Php.sanitize_id raw)); simpl;
    [|destruct info; repeat split; intros; congruence].
  destruct (metas st !! Php.sanitize_id raw) as [c|];
    [|destruct info; repeat split; intros; congruence].
  destruct (usable c st) as [[m p]|] eqn:Hu;
    [|destruct info; repeat split; intros; congruence].
  destruct (m_expiresAt m) as [d|]; [|exact I].
  destruct (parse_date (now_blank e) d) as [x|]; [|exact I].
  destruct (x <? now_check e);
    [destruct info; repeat split; intros; congruence|].
  destruct info; [repeat split; intros; congruence|].
  apply usable_exists in Hu as (_ & _ & b & Hb).
  unfold download_of. rewrite Hb. repeat split; intros; congruence.
Qed.

(** The shapes of what the script hands over: the header lines start
    with the four CORS lines; a JSON payload comes with the JSON content
    type and nothing else, a failure payload with one of the error
    codes, a success payload or file content with 200, no payload with
    204 only; a plain text is an error of a download request.  A GET run
    with the info flag always hands a JSON payload to [jsonResponse],
    failures included, and so does every POST run. *)
Lemma handed_payload_shaped (e : env) (r : request) (st : store) :
  match (serve cfg e r st).1 with
  | Sent resp =>
      well_shaped resp = true /\
      take 4 (headers resp) = cors_headers /\
      (method r = POST -> is_json (content resp) = true) /\
      (method r = GET -> get_info r = true -> is_json (content resp) = true)
  | Crashed => True
  end.
Proof.
  unfold serve.
  destruct (method r) eqn:Hv.
  - repeat split; intros; congruence.
  - destruct (cleanupExpired (now_sweep e) st); [|exact I].
    destruct (get_id r) as [raw|].
    + pose proof (handle_get_shaped e raw (get_info r) st0) as Hs.
      destruct (handle_get e raw (get_info r) st0).1 as [resp|]; [|exact I].
      destruct Hs as (Hw & Hc & Hj). repeat split; auto; intros; congruence.
    + repeat split; intros; congruence.
  - destruct (cleanupExpired (now_sweep e) st); [|exact I].
    pose proof (handle_post_shaped e r st0) as Hs.
    replace (match get_id r with
             | Some _ => handle_post cfg e r st0
             | None => handle_post cfg e r st0
             end) with (handle_post cfg e r st0) by now destruct (get_id r).
    destruct (handle_post cfg e r st0).1 as [resp|]; [|contradiction].
    destruct Hs as (Hw & Hc & Hj). repeat split; auto; intros; congruence.
  - destruct (cleanupExpired (now_sweep e) st); [|exact I].
    destruct (get_id r); repeat split; intros; congruence.
Qed.

Lemma serve_no_crash e r st :
  wf_store cfg st -> exists resp, (serve cfg e r st).1 = Sent resp.
Proof.
  intros Hwf.
  pose proof (cleanupExpired_shrinks (now_sweep e) st) as Hsh.
  destruct (sweep_loop_done_ex (now_sweep e) (glob_json st) st (wf_no_junk cfg _ Hwf))
    as [st1 Hrun].
  rewrite <- cleanupExpired_loop in Hrun. rewrite Hrun in Hsh. simpl in Hsh.
  assert (Hwf1 : wf_store cfg st1) by (eapply wf_shrinks; eauto).
  unfold serve. rewrite Hrun.
  destruct (method r); [eauto| | |].
  - destruct (get_id r) as [raw|]; [|eauto].
    unfold handle_get.
    destruct (Php.truthy (Php.sanitize_id raw)); simpl;
      [|destruct (get_info r); eauto].
    destruct (metas st1 !! Php.sanitize_id raw) as [c|] eqn:Hc;
      [|destruct (get_info r); eauto].
    destruct (usable c st1) as [[m p]|] eqn:Hu;
      [|destruct (get_info r); eauto].
    apply usable_exists in Hu as (-> & _ & _).
    destruct (issued_record cfg _ m (Hwf1 _ _ Hc)) as (e' & u' & _ & ->).
    simpl. destruct (_ <? _); destruct (get_info r); eauto.
  - pose proof (handle_post_shaped e r st1) as Hs.
    destruct (get_id r); destruct (handle_post cfg e r st1).1; eauto; contradiction.
  - destruct (get_id r); eauto.
Qed.

Lemma run_seq_wf runs st : wf_store cfg st -> wf_store cfg (run_seq cfg runs st).
Proof.
  revert st. induction runs as [|[e r] runs IH]; intros st Hwf; [exact Hwf|].
  simpl. apply IH. now apply serve_wf.
Qed.

Lemma run_results_no_crash runs st :
  wf_store cfg st ->
  Forall (fun res => exists resp, res = Sent resp) (run_results cfg runs st).
Proof.
  revert st. induction runs as [|[e r] runs IH]; intros st Hwf; simpl.
  - constructor.
  - constructor; [now apply serve_no_crash|]. apply IH. now apply serve_wf.
Qed.

(** X5: started on an empty upload directory, the script never ends a
    run in a fatal error, whatever the requests, the clock readings and
    the random draws of the runs are, and after every sequence of runs
    each metadata file of the directory is a record that an upload wrote
    under the id that names the file. *)
Theorem runs_from_empty_never_crash (runs : list (env * request)) :
  Forall (fun res => exists resp, res = Sent resp)
    (run_results cfg runs empty_store) /\
  wf_store cfg (run_seq cfg runs empty_store).
Proof.
  split; [apply run_results_no_crash | apply run_seq_wf]; apply wf_store_empty.
Qed.

Lemma sweep_loop_unlinks now ks st :
  exists evs,
    journal (final (sweep_loop now ks st)) = journal st ++ evs /\
    forallb is_unlink evs = true.
Proof.
  revert st. induction ks as [|k ks IH]; intros st.
  - exists []. now rewrite app_nil_r.
  - simpl.
    assert (Hstep : exists ev,
              journal (final (sweep_file now k st)) = journal st ++ ev /\
              forallb is_unlink ev = true).
    { destruct (sweep_file_cases now k st) as [[_ ->]|(m & _ & _ & ->)].
      - exists []. now rewrite app_nil_r.
      - simpl. destruct (m_path m) as [p|].
        + rewrite unlink_if_present_journal.
          destruct (Php.truthy p && file_exists p st)%bool; eexists;
            rewrite <- app_assoc; split; reflexivity.
        + simpl. eexists. split; reflexivity. }
    destruct Hstep as (ev & Hev & Hun).
    destruct (sweep_file now k st) as [st1|st1]; simpl in *; [|eauto].
    destruct (IH st1) as (evs & Hevs & Huns).
    exists (ev ++ evs). rewrite Hevs, Hev, <- app_assoc. split; [reflexivity|].
    now rewrite forallb_app, Hun, Huns.
Qed.

(** What a run that is not an upload does to the two maps, and which of
    the calls [move_uploaded_file], [file_put_contents] and [unlink] it
    makes: every record and every payload is afterwards as before or
    gone, and the calls are unlinks. *)
Lemma non_upload_run_effects (e : env) (r : request) (st : store) :
  method r <> POST ->
  (forall k, metas (serve cfg e r st).2 !! k = metas st !! k \/
             metas (serve cfg e r st).2 !! k = None) /\
  (forall p, objs (serve cfg e r st).2 !! p = objs st !! p \/
             objs (serve cfg e r st).2 !! p = None) /\
  exists evs,
    journal (serve cfg e r st).2 = journal st ++ evs /\
    forallb is_unlink evs = true.
Proof.
  intros Hnp.
  pose proof (cleanupExpired_shrinks (now_sweep e) st) as [Hm Ho].
  destruct (sweep_loop_unlinks (now_sweep e) (glob_json st) st) as (evs & Hj & Hun).
  rewrite <- cleanupExpired_loop in Hj.
  assert (Hm' : forall k,
            metas (final (cleanupExpired (now_sweep e) st)) !! k = metas st !! k \/
            metas (final (cleanupExpired (now_sweep e) st)) !! k = None)
    by (intros k; destruct (Hm k) as [?|[? _]]; auto).
  assert (Ho' : forall p,
            objs (final (cleanupExpired (now_sweep e) st)) !! p = objs st !! p \/
            objs (final (cleanupExpired (now_sweep e) st)) !! p = None)
    by (intros p; destruct (Ho p) as [?|[? _]]; auto).
  clear Hm Ho. unfold serve.
  destruct (method r) eqn:Hv; [| |contradiction|].
  - split; [auto|]. split; [auto|]. exists []. now rewrite app_nil_r.
  - destruct (cleanupExpired (now_sweep e) st) as [st1|st1]; simpl in *; [|eauto].
    destruct (get_id r) as [raw|]; [|simpl; eauto].
    unfold handle_get.
    destruct (Php.truthy (Php.sanitize_id raw)); simpl; [|eauto].
    destruct (metas st1 !! Php.sanitize_id raw) as [c|]; [|simpl; eauto].
    destruct (usable c st1) as [[m p]|].
    + destruct (m_expiresAt m) as [d|]; [|simpl; eauto].
      destruct (parse_date (now_blank e) d) as [x|]; [|simpl; eauto].
      destruct (x <? now_check e); [|destruct (get_info r); simpl; eauto].
      simpl. split; [|split].
      * intros k. destruct (decide (Php.sanitize_id raw = k)) as [<-|Hne];
          [right; apply lookup_delete_eq | rewrite lookup_delete_ne by exact Hne; auto].
      * intros q. destruct (decide (p = q)) as [<-|Hne];
          [right; apply lookup_delete_eq | rewrite lookup_delete_ne by exact Hne; auto].
      * exists (evs ++ [UnlinkObj p; UnlinkMeta (Php.sanitize_id raw)]).
        rewrite Hj, <- !app_assoc. split; [reflexivity|].
        now rewrite forallb_app, Hun.
    + simpl. split; [|split; [auto|]].
      * intros k. destruct (decide (Php.sanitize_id raw = k)) as [<-|Hne];
          [right; apply lookup_delete_eq | rewrite lookup_delete_ne by exact Hne; auto].
      * exists (evs ++ [UnlinkMeta (Php.sanitize_id raw)]).
        rewrite Hj, <- !app_assoc. split; [reflexivity|].
        now rewrite forallb_app, Hun.
  - destruct (cleanupExpired (now_sweep e) st) as [st1|st1]; simpl in *; [|eauto].
    destruct (get_id r); simpl; eauto.
Qed.

(** X11: a run that is not an upload adds no file and rewrites none.
    Whatever the request and however the run ends, every metadata file
    and every payload is afterwards as before or gone.  (Directories are
    not files of the model: lines 26-31 create the upload and metadata
    directories when they are missing, whatever the request.) *)
Theorem only_uploads_add_files (e : env) (r : request) (st : store) :
  method r <> POST ->
  (forall k, metas (serve cfg e r st).2 !! k = metas st !! k \/
             metas (serve cfg e r st).2 !! k = None) /\
  (forall p, objs (serve cfg e r st).2 !! p = objs st !! p \/
             objs (serve cfg e r st).2 !! p = None).
Proof.
  intros Hnp. destruct (non_upload_run_effects e r st Hnp) as (Hm & Ho & _).
  split; assumption.
Qed.

End RunFacts.

(** ** An upload among other traffic *)

Section TrafficFacts.
Context `{Runtime}.
Variable cfg : config.

Lemma live_usable e0 u0 st :
  live_upload cfg e0 u0 st ->
  usable (Some (upload_meta cfg e0 u0)) st
  = Some (upload_meta cfg e0 u0, targetPath cfg e0 u0).
Proof.
  intros [_ Ho]. unfold usable, file_exists. simpl.
  now rewrite targetPath_truthy, Ho.
Qed.

Lemma other_path e0 u0 st k m p :
  wf_store cfg st -> metas st !! k = Some (Some m) -> m_path m = Some p ->
  k <> new_id e0 -> p <> targetPath cfg e0 u0.
Proof.
  intros Hwf Hk Hp Hne ->.
  destruct (issued_record cfg k m (Hwf _ _ Hk)) as (e' & u' & <- & ->).
  simpl in Hp. injection Hp as Hp. now apply targetPath_inj in Hp.
Qed.

Lemma sweep_keeps_live now e0 u0 st :
  wf_store cfg st -> live_upload cfg e0 u0 st ->
  now <= expiresAt_of cfg e0 * usec ->
  exists st1,
    cleanupExpired now st = Done st1 /\
    wf_store cfg st1 /\ live_upload cfg e0 u0 st1.
Proof.
  intros Hwf [Hm Ho] Hnow.
  pose proof (cleanupExpired_shrinks now st) as Hsh.
  destruct (sweep_loop_done_ex now (glob_json st) st (wf_no_junk cfg _ Hwf))
    as [st1 Hrun].
  rewrite <- cleanupExpired_loop in Hrun. rewrite Hrun in Hsh. simpl in Hsh.
  exists st1. split; [exact Hrun|]. split; [eapply wf_shrinks; eauto|].
  destruct Hsh as [Hms Hos].
  assert (Hfresh : expirable now (Some (Some (upload_meta cfg e0 u0))) = false)
    by (simpl; apply Z.ltb_ge; lia).
  split.
  - destruct (Hms (new_id e0)) as [E|(_ & _ & Hx)]; [congruence|].
    rewrite Hm, Hfresh in Hx. discriminate.
  - destruct (Hos (targetPath cfg e0 u0)) as [E|(_ & k & m' & _ & Hk & Hx & Hp)];
      [congruence|].
    exfalso. destruct (decide (k = new_id e0)) as [->|Hne].
    + rewrite Hm, Hfresh in Hx. discriminate.
    + now apply (other_path e0 u0 st k m' _ Hwf Hk Hp Hne).
Qed.

Lemma handle_get_keeps_live e e0 u0 raw info st :
  wf_store cfg st -> live_upload cfg e0 u0 st ->
  now_check e <= expiresAt_of cfg e0 * usec ->
  live_upload cfg e0 u0 (handle_get e raw info st).2.
Proof.
  intros Hwf Hlive Hchk. pose proof Hlive as [Hm Ho].
  unfold handle_get.
  destruct (Php.truthy (Php.sanitize_id raw)); [|exact Hlive]. simpl.
  destruct (metas st !! Php.sanitize_id raw) as [c|] eqn:Hc; [|exact Hlive].
  destruct (decide (Php.sanitize_id raw = new_id e0)) as [Heq|Hne].
  - rewrite Heq in Hc. rewrite Hm in Hc. injection Hc as <-.
    rewrite (live_usable e0 u0 st Hlive). simpl.
    apply Z.ltb_ge in Hchk. rewrite Hchk. now destruct info.
  - destruct (usable c st) as [[m p]|] eqn:Hu.
    + destruct (m_expiresAt m) as [d|]; [|exact Hlive].
      destruct (parse_date (now_blank e) d) as [x|]; [|exact Hlive].
      destruct (x <? now_check e); [|now destruct info].
      apply usable_exists in Hu as (-> & Hp & _).
      split; simpl.
      * now rewrite lookup_delete_ne.
      * rewrite lookup_delete_ne; [exact Ho|].
        now apply (other_path e0 u0 st _ m p Hwf Hc Hp).
    + split; simpl; [now rewrite lookup_delete_ne | exact Ho].
Qed.

Lemma handle_post_keeps_live e e0 u0 r st :
  live_upload cfg e0 u0 st -> new_id e <> new_id e0 ->
  live_upload cfg e0 u0 (handle_post cfg e r st).2.
Proof.
  intros Hlive Hne. pose proof Hlive as [Hm Ho]. unfold handle_post.
  destruct (negb _); [exact Hlive|].
  destruct (post_file r) as [u|]; [|exact Hlive].
  destruct (negb _); [exact Hlive|].
  destruct (up_size u >? maxSize cfg); [exact Hlive|].
  destruct (negb _); [exact Hlive|].
  split; simpl.
  - now rewrite lookup_insert_ne.
  - rewrite lookup_insert_ne; [exact Ho|].
    intros Heq. now apply targetPath_inj in Heq.
Qed.

Lemma serve_keeps_live e r e0 u0 st :
  wf_store cfg st -> live_upload cfg e0 u0 st -> spares cfg e0 (e, r) ->
  live_upload cfg e0 u0 (serve cfg e r st).2.
Proof.
  intros Hwf Hlive (Hsw & Hchk & Hpost). simpl in *.
  destruct (sweep_keeps_live (now_sweep e) e0 u0 st Hwf Hlive Hsw)
    as (st1 & Hrun & Hwf1 & Hlive1).
  unfold serve. rewrite Hrun.
  destruct (method r); [exact Hlive| | |].
  - destruct (get_id r) as [raw|]; [|exact Hlive1].
    now apply handle_get_keeps_live.
  - assert (Hl : live_upload cfg e0 u0 (handle_post cfg e r st1).2)
      by (apply handle_post_keeps_live; auto).
    now destruct (get_id r).
  - now destruct (get_id r).
Qed.

(** X8: runs do not disturb the uploads they are not about.  In a
    directory written by uploads, an upload whose record and payload are
    in place stays in place, record and payload unchanged, through every
    run made before it expires, unless the run is an upload that draws
    its very id: no sweep, no request for another id, no request for its
    own id and no other upload touches it. *)
Theorem live_upload_is_spared
    (e : env) (r : request) (e0 : env) (u0 : upfile) (st : store) :
  wf_store cfg st -> live_upload cfg e0 u0 st -> spares cfg e0 (e, r) ->
  live_upload cfg e0 u0 (serve cfg e r st).2 /\
  wf_store cfg (serve cfg e r st).2.
Proof.
  intros Hwf Hlive Hsp. split; [now apply serve_keeps_live | now apply serve_wf].
Qed.






End TrafficFacts.

(** ** Sample runs for the properties above *)

Lemma wf_report_store : @wf_store plain_runtime sample_config report_store.
Proof. apply (@serve_wf plain_runtime), (@wf_store_empty plain_runtime). Qed.

Lemma live_report : live_upload sample_config (env_at 0) report_upload report_store.
Proof. split; reflexivity. Qed.


Lemma live_upload_is_spared_witness :
  live_upload sample_config (env_at 0) report_upload
    (@serve plain_runtime sample_config other_env
       (post_request traversal_upload) report_store).2 /\
  @wf_store plain_runtime sample_config
    (@serve plain_runtime sample_config other_env
       (post_request traversal_upload) report_store).2.
Proof.
  apply (@live_upload_is_spared plain_runtime sample_config other_env
           (post_request traversal_upload) (env_at 0) report_upload report_store).
  - apply wf_report_store.
  - apply live_report.
  - repeat split; simpl; vm_compute; discriminate.
Defined.



Example full_disk_answers_500 :
  @serve plain_runtime sample_config full_disk_env (post_request report_upload)
    (sample_store 10)
  = (jsonResponse (JsonFailure "Unable to save uploaded file") 500, sample_store 10).
Proof. reflexivity. Qed.

Lemma only_uploads_add_files_witness :
  metas (sample_store 10) !! sample_id = Some (Some (sample_meta 10)) /\
  metas (@serve plain_runtime sample_config (env_at 11000000)
           (get_request sample_id true) (sample_store 10)).2 !! sample_id = None /\
  (forall k,
     metas (@serve plain_runtime sample_config (env_at 11000000)
              (get_request sample_id true) (sample_store 10)).2 !! k
     = metas (sample_store 10) !! k \/
     metas (@serve plain_runtime sample_config (env_at 11000000)
              (get_request sample_id true) (sample_store 10)).2 !! k = None) /\
  (forall p,
     objs (@serve plain_runtime sample_config (env_at 11000000)
             (get_request sample_id true) (sample_store 10)).2 !! p
     = objs (sample_store 10) !! p \/
     objs (@serve plain_runtime sample_config (env_at 11000000)
             (get_request sample_id true) (sample_store 10)).2 !! p = None).
Proof.
  split; [reflexivity|]. split; [reflexivity|].
  apply (@only_uploads_add_files plain_runtime sample_config (env_at 11000000)
           (get_request sample_id true) (sample_store 10)).
  discriminate.
Defined.

(** ** Id collisions and the first run after the expiry *)

Section Collision.
Context `{Runtime}.
Variable cfg : config.

(** X14: the upload handler does not look whether the id it drew is in
    use.  When a run draws the random bytes of an upload that is still in
    place, the upload is accepted like any other: the record of the id is
    replaced by the new one, the new payload is stored, and, the stored
    names being different, the old payload stays at its path, where no
    record of that id names it any more. *)
Theorem colliding_upload_replaces_record
    (e : env) (r : request) (u : upfile) (e0 : env) (u0 : upfile) (st st1 : store) :
  method r = POST -> post_action r = Some "upload" -> post_file r = Some u ->
  up_error u = UPLOAD_ERR_OK -> up_size u <= maxSize cfg -> move_ok e = true ->
  cleanupExpired (now_sweep e) st = Done st1 ->
  live_upload cfg e0 u0 st1 ->
  random6 e = random6 e0 ->
  storedName e u <> storedName e0 u0 ->
  exists resp st',
    serve cfg e r st = (Sent resp, st') /\
    status resp = 200 /\
    metas st' !! new_id e0 = Some (written_meta (upload_meta cfg e u)) /\
    objs st' !! targetPath cfg e u = Some (up_bytes u) /\
    objs st' !! targetPath cfg e0 u0 = Some (up_bytes u0) /\
    m_path (upload_meta cfg e u) <> Some (targetPath cfg e0 u0).
Proof.
  intros Hpost Hact Hfile Herr Hsz Hmv Hrun [Hm Ho] Hrnd Hname.
  assert (Hid : new_id e = new_id e0) by (unfold new_id; now rewrite Hrnd).
  assert (Hpath : targetPath cfg e u <> targetPath cfg e0 u0).
  { unfold targetPath. intros Heq. do 2 apply String.app_inj in Heq.
    contradiction. }
  rewrite (serve_post cfg e r st st1 Hpost Hrun).
  rewrite (handle_post_ok cfg e r u st1 Hact Hfile Herr Hsz Hmv).
  do 2 eexists. split; [reflexivity|]. split; [reflexivity|]. simpl.
  split; [rewrite <- Hid; apply lookup_insert_eq|].
  split; [apply lookup_insert_eq|].
  split; [now rewrite lookup_insert_ne|].
  congruence.
Qed.



End Collision.

Lemma colliding_upload_replaces_record_witness :
  exists resp st',
    @serve plain_runtime sample_config (env_at 1000000) (post_request notes_upload)
      report_store = (Sent resp, st') /\
    status resp = 200 /\
    metas st' !! new_id (env_at 0)
    = Some (@written_meta plain_runtime
              (upload_meta sample_config (env_at 1000000) notes_upload)) /\
    objs st' !! targetPath sample_config (env_at 1000000) notes_upload
    = Some (up_bytes notes_upload) /\
    objs st' !! targetPath sample_config (env_at 0) report_upload
    = Some (up_bytes report_upload) /\
    m_path (upload_meta sample_config (env_at 1000000) notes_upload)
    <> Some (targetPath sample_config (env_at 0) report_upload).
Proof.
  apply (@colliding_upload_replaces_record plain_runtime sample_config
           (env_at 1000000) (post_request notes_upload) notes_upload
           (env_at 0) report_upload report_store report_store);
    try reflexivity.
  - vm_compute. discriminate.
  - apply live_report.
  - vm_compute. discriminate.
Defined.


(** ** The preview limit *)

Lemma scan_entries_low_limit limit a :
  limit <= 1 -> scan_entries limit a [] = scan_entries 1 a [].
Proof.
  intros Hle. induction a as [|e a IH]; [reflexivity|].
  simpl. destruct (content_name e) as [n|]; [|exact IH].
  simpl. change (Z.of_nat 1) with 1.
  destruct (Z.geb_spec 1 limit); [reflexivity | lia].
Qed.

(** X16: the limit of [buildZipPreview] at its bounds.  With a limit of
    at least one, the preview lists the first [limit] content entries
    and is marked truncated exactly when there are more.  A limit of zero
    or below does not give an empty preview: the test of line 82 comes
    after an entry is appended, so the preview is that of limit one. *)
Theorem preview_limit_bounds `{Runtime} (file : option (list byte)) (limit : Z) :
  (1 <= limit ->
   buildZipPreview file limit =
   ZipPreview (take (Z.to_nat limit) (archive_listing file))
     (bool_decide (Z.to_nat limit < length (archive_listing file))%nat)) /\
  (limit <= 0 -> buildZipPreview file limit = buildZipPreview file 1) /\
  (length (zipContents (buildZipPreview file limit))
   <= Z.to_nat (Z.max 1 limit))%nat.
Proof.
  assert (Hpos : forall l, 1 <= l ->
            buildZipPreview file l =
            ZipPreview (take (Z.to_nat l) (archive_listing file))
              (bool_decide (Z.to_nat l < length (archive_listing file))%nat)).
  { intros l Hl. unfold buildZipPreview, archive_listing.
    destruct file as [bytes|]; simpl.
    - destruct (zip_open bytes) as [a|].
      + rewrite scan_entries_spec by (simpl; lia). reflexivity.
      + rewrite take_nil. reflexivity.
    - rewrite take_nil. reflexivity. }
  assert (Hlow : limit <= 0 -> buildZipPreview file limit = buildZipPreview file 1).
  { intros Hle. unfold buildZipPreview.
    destruct file as [bytes|]; [|reflexivity].
    destruct (zip_open bytes) as [a|]; [|reflexivity].
    apply scan_entries_low_limit. lia. }
  split; [apply Hpos|]. split; [exact Hlow|].
  destruct (Z.le_gt_cases 1 limit) as [Hge|Hlt].
  - rewrite (Hpos limit Hge). cbn [zipContents]. rewrite length_take. lia.
  - rewrite Hlow by lia. rewrite (Hpos 1) by lia. cbn [zipContents].
    rewrite length_take. lia.
Qed.

Example preview_with_limit_zero :
  scan_entries 0 [ZipEntry (Some "a/") None; ZipEntry (Some "a/x") (Some 1);
                  ZipEntry (Some "a/y") (Some 2)] []
  = ZipPreview [PreviewEntry "a/x" 1] true.
Proof. reflexivity. Qed.

(** ** The stored location, drawn id by drawn id *)

(** C9 as it holds: the stored name is the generated id (twelve
    lower-case hexadecimal digits), two underscores and the sanitised
    form of the name kept as original, a fragment of the same length
    over [A-Za-z0-9_.-] only; the stored name holds no path separator and
    is the last component of the target, so the target is a file
    directly inside the upload directory.  Two uploads get the same
    target exactly when they draw the same random bytes and their names
    sanitise to the same fragment: uploads of one file name get different
    targets exactly when their random draws differ, and nothing in the
    script looks whether a drawn id is in use. *)
Theorem stored_location_by_id_and_fragment
    (cfg : config) (e1 e2 : env) (u1 u2 : upfile) :
  storedName e1 u1
  = new_id e1 +:+ "__" +:+ Php.sanitize_name (originalName u1) /\
  String.length (new_id e1) = 12%nat /\
  Php.str_forall Php.is_lower_hex (new_id e1) = true /\
  String.length (Php.sanitize_name (originalName u1))
  = String.length (originalName u1) /\
  Php.str_forall Php.is_safe (Php.sanitize_name (originalName u1)) = true /\
  str_contains "/" (storedName e1 u1) = false /\
  Php.after_last "/" (targetPath cfg e1 u1) = Some (storedName e1 u1) /\
  (targetPath cfg e1 u1 = targetPath cfg e2 u2 <->
   random6 e1 = random6 e2 /\
   Php.sanitize_name (originalName u1) = Php.sanitize_name (originalName u2)) /\
  (up_name u1 = up_name u2 ->
   (targetPath cfg e1 u1 = targetPath cfg e2 u2 <-> random6 e1 = random6 e2)).
Proof.
  assert (Hiff : targetPath cfg e1 u1 = targetPath cfg e2 u2 <->
                 random6 e1 = random6 e2 /\
                 Php.sanitize_name (originalName u1)
                 = Php.sanitize_name (originalName u2)).
  { split.
    - intros Heq. pose proof (targetPath_inj _ _ _ _ _ Heq) as Hid.
      split; [now apply new_id_inj|].
      unfold targetPath in Heq. do 2 apply String.app_inj in Heq.
      rewrite !storedName_plain, Hid in Heq.
      now do 2 apply String.app_inj in Heq.
    - intros [Hrnd Hfrag]. unfold targetPath.
      rewrite !storedName_plain, Hfrag. unfold new_id. now rewrite Hrnd. }
  split; [apply storedName_plain|].
  split; [apply new_id_length|].
  split; [apply new_id_hex|].
  split; [apply str_map_length|].
  split; [apply sanitize_name_safe|].
  split; [apply safe_no_slash, storedName_safe|].
  split; [unfold targetPath; apply after_last_app, safe_no_slash, storedName_safe|].
  split; [exact Hiff|].
  intros Hname. rewrite Hiff. unfold originalName. rewrite Hname. tauto.
Qed.

(** The claim C9 has two uploads of one file name stored at distinct
    locations.  The id is drawn at random and never compared with the
    ids in use: two uploads of [report.pdf] whose runs draw the same six
    bytes get one target, and the second payload replaces the first. *)
Lemma same_draw_same_location :
  up_name report_upload = up_name second_report_upload /\
  up_bytes report_upload <> up_bytes second_report_upload /\
  random6 (env_at 0) = random6 (env_at 1000000) /\
  targetPath sample_config (env_at 0) report_upload
  = targetPath sample_config (env_at 1000000) second_report_upload /\
  objs (@serve plain_runtime sample_config (env_at 0)
          (post_request report_upload) empty_store).2
  = {[ sample_path := up_bytes report_upload ]} /\
  objs (@serve plain_runtime sample_config (env_at 1000000)
          (post_request second_report_upload)
          (@serve plain_runtime sample_config (env_at 0)
             (post_request report_upload) empty_store).2).2
  = {[ sample_path := up_bytes second_report_upload ]}.
Proof. repeat split; try reflexivity. discriminate. Qed.

(** ** The preview against its description *)

Lemma ends_with_slash_placeholder n : ends_with_slash n = is_placeholder n.
Proof.
  induction n as [|c r IH]; [reflexivity|].
  destruct r as [|d r']; [reflexivity|].
  change (ends_with_slash (String c (String d r')))
    with (ends_with_slash (String d r')).
  rewrite IH. reflexivity.
Qed.

Lemma listed_slots_content a :
  map (fun s => PreviewEntry s.1 s.2) (listed_slots a) = content_entries a.
Proof.
  induction a as [|e a IH]; [reflexivity|].
  rewrite content_entries_cons. unfold listed_slots in *. cbn [flat_map].
  rewrite map_app, IH. unfold content_name.
  destruct (ze_name e) as [n|]; [|reflexivity].
  rewrite ends_with_slash_placeholder.
  destruct (is_placeholder n); [reflexivity|].
  unfold entry_of. simpl. now destruct (ze_size e).
Qed.

(** C5: the preview of a stored object is the one its description asks
    for.  It lists, in directory order, the slots whose name can be read
    and does not end in a slash, each with its own name and size (0 for
    a slot without size), cut off after the first 200; [zipTruncated]
    holds exactly when more than 200 such slots exist (500 give 200
    entries and true, 50 give 50 and false); an object that is missing
    or does not open as an archive gives the empty list and false,
    without an error.  On an archive of five slots, one a folder
    placeholder and one without readable name, the three others are
    listed with their names and sizes. *)
Theorem preview_is_expected `{Runtime} (file : option (list byte)) :
  buildZipPreview file preview_limit = expected_preview (file ≫= zip_open) /\
  (forall a, file ≫= zip_open = Some a ->
     zipContents (buildZipPreview file preview_limit)
     = map (fun s => PreviewEntry s.1 s.2) (firstn 200 (listed_slots a)) /\
     length (zipContents (buildZipPreview file preview_limit))
     = Nat.min 200 (length (listed_slots a)) /\
     (zipTruncated (buildZipPreview file preview_limit) = true
      <-> (200 < length (listed_slots a))%nat) /\
     (length (listed_slots a) = 500%nat ->
      length (zipContents (buildZipPreview file preview_limit)) = 200%nat /\
      zipTruncated (buildZipPreview file preview_limit) = true) /\
     (length (listed_slots a) = 50%nat ->
      length (zipContents (buildZipPreview file preview_limit)) = 50%nat /\
      zipTruncated (buildZipPreview file preview_limit) = false)) /\
  (file ≫= zip_open = None ->
   buildZipPreview file preview_limit = ZipPreview [] false) /\
  @buildZipPreview mixed_runtime (Some []) preview_limit
  = ZipPreview [ PreviewEntry "docs/a.txt" 5; PreviewEntry "b.bin" 0;
                 PreviewEntry "" 1 ] false.
Proof.
  assert (Hexp : buildZipPreview file preview_limit
                 = expected_preview (file ≫= zip_open)).
  { rewrite buildZipPreview_spec. unfold archive_listing, expected_preview.
    destruct (file ≫= zip_open) as [a|]; [|reflexivity].
    rewrite <- listed_slots_content, length_map. f_equal.
    - apply firstn_map.
    - destruct (Nat.ltb_spec 200 (length (listed_slots a))).
      + now apply bool_decide_eq_true_2.
      + apply bool_decide_eq_false_2. lia. }
  split; [exact Hexp|]. split; [|split; [|reflexivity]].
  - intros a Ha. rewrite Hexp, Ha. cbn [expected_preview zipContents zipTruncated].
    rewrite length_map, length_firstn.
    split; [reflexivity|]. split; [reflexivity|].
    split; [apply Nat.ltb_lt|].
    split; intros Hn; rewrite Hn; split; reflexivity.
  - intros Hn. now rewrite Hexp, Hn.
Qed.

(** ** The sweep over one directory tree *)

Section Tree.
Variable cfg : config.

Lemma meta_stem_at_path p st k : meta_stem_at cfg p st = Some k -> metaPath cfg k = p.
Proof.
  unfold meta_stem_at. intros Hf. apply find_some in Hf as [_ Heq].
  now apply String.eqb_eq.
Qed.

Lemma meta_stem_at_free p st :
  (forall k, is_Some (metas st !! k) -> metaPath cfg k <> p) ->
  meta_stem_at cfg p st = None.
Proof.
  intros Hfree. unfold meta_stem_at.
  destruct (find _ _) as [k|] eqn:Hf; [|reflexivity].
  apply find_some in Hf as [Hin Heq]. apply String.eqb_eq in Heq.
  exfalso. apply (Hfree k); [|exact Heq].
  apply list_elem_of_In, list_elem_of_fmap in Hin as [[k' c] [-> Hin]].
  apply elem_of_map_to_list in Hin. now exists c.
Qed.

Lemma tree_shrinks_refl P now st : tree_shrinks cfg P now st st.
Proof. split; intros; now left. Qed.

Lemma taken_back P now st1 st2 p :
  (forall k, metas st2 !! k = metas st1 !! k \/ metas st2 !! k = None) ->
  taken P now st2 p -> taken P now st1 p.
Proof.
  intros Hm (k & m & HP & Hk & Hx & Hp). exists k, m.
  destruct (Hm k) as [E|E]; rewrite E in Hk, Hx; [auto | discriminate].
Qed.

Lemma tree_shrinks_metas P now st st' k :
  tree_shrinks cfg P now st st' ->
  metas st' !! k = metas st !! k \/ metas st' !! k = None.
Proof. intros [Hm _]. destruct (Hm k) as [E|[E _]]; auto. Qed.

Lemma tree_shrinks_trans P now st1 st2 st3 :
  tree_shrinks cfg P now st1 st2 -> tree_shrinks cfg P now st2 st3 ->
  tree_shrinks cfg P now st1 st3.
Proof.
  intros H12 H23.
  pose proof (fun k => tree_shrinks_metas P now st1 st2 k H12) as Hback.
  destruct H12 as [Hm12 Ho12], H23 as [Hm23 Ho23]. split.
  - intros k. destruct (Hm23 k) as [E23|(E23 & [[HP Hx]|Htk])].
    + rewrite E23. apply Hm12.
    + right. split; [exact E23|]. left. split; [exact HP|].
      destruct (Hback k) as [E|E]; rewrite E in Hx; [exact Hx | discriminate].
    + right. split; [exact E23|]. right. eapply taken_back; eauto.
  - intros p. destruct (Ho23 p) as [E23|(E23 & Htk)].
    + rewrite E23. apply Ho12.
    + right. split; [exact E23|]. eapply taken_back; eauto.
Qed.

Lemma tree_shrinks_mono (P Q : string -> Prop) now st st' :
  (forall k, P k -> Q k) ->
  tree_shrinks cfg P now st st' -> tree_shrinks cfg Q now st st'.
Proof.
  intros HPQ [Hm Ho].
  assert (Htk : forall p, taken P now st p -> taken Q now st p).
  { intros p (k & m & HP & Hrest). exists k, m. split; [auto | exact Hrest]. }
  split.
  - intros k. destruct (Hm k) as [E|(E & [[HP Hx]|H1])]; [now left| |];
      right; (split; [exact E|]); [left | right]; auto.
  - intros p. destruct (Ho p) as [E|(E & H1)]; [now left|]. right. auto.
Qed.

Lemma tree_sweep_file_cases now k st :
  (expirable now (metas st !! k) = false /\
   final (tree_sweep_file cfg now k st) = st) \/
  (exists m, metas st !! k = Some (Some m) /\
             expirable now (metas st !! k) = true /\
             tree_sweep_file cfg now k st =
             Done (unlink_meta k (tree_unlink_if_present cfg (m_path m) st))).
Proof.
  unfold tree_sweep_file, expirable.
  destruct (metas st !! k) as [[m|]|]; try (left; split; reflexivity).
  destruct (m_expiresAt m) as [[s| |]|]; simpl; try (left; split; reflexivity).
  destruct (s * usec <? now) eqn:Hlt.
  - right. exists m. repeat split; reflexivity.
  - left. split; reflexivity.
Qed.

(** What the unlink of lines 123-125 changes: nothing, the payload at the
    path, or the metadata file at the path. *)
Lemma tree_unlink_if_present_cases path st :
  tree_unlink_if_present cfg path st = st \/
  (exists p, path = Some p /\ tree_unlink_if_present cfg path st = unlink_obj p st) \/
  (exists k, path = Some (metaPath cfg k) /\
             tree_unlink_if_present cfg path st = unlink_meta k st).
Proof.
  unfold tree_unlink_if_present. destruct path as [p|]; [|now left].
  destruct (Php.truthy p && path_exists cfg p st)%bool; [|now left].
  right. unfold unlink_path.
  destruct (meta_stem_at cfg p st) as [k|] eqn:Hk.
  - right. exists k. now rewrite (meta_stem_at_path p st k Hk).
  - left. now exists p.
Qed.

Lemma tree_sweep_file_shrinks now k st :
  tree_shrinks cfg (eq k) now st (final (tree_sweep_file cfg now k st)).
Proof.
  destruct (tree_sweep_file_cases now k st) as [[_ ->]|(m & Hk & Hx & ->)];
    [apply tree_shrinks_refl|].
  assert (Htk : forall p, m_path m = Some p -> taken (eq k) now st p)
    by (intros p Hp; now exists k, m).
  destruct (tree_unlink_if_present_cases (m_path m) st)
    as [->|[(p & Hp & ->)|(k1 & Hp & ->)]]; split; simpl; intros q.
  - destruct (decide (k = q)) as [<-|Hne].
    + right. rewrite lookup_delete_eq. auto.
    + left. now rewrite lookup_delete_ne.
  - now left.
  - destruct (decide (k = q)) as [<-|Hne].
    + right. rewrite lookup_delete_eq. auto.
    + left. now rewrite lookup_delete_ne.
  - destruct (decide (p = q)) as [<-|Hne].
    + right. rewrite lookup_delete_eq. auto.
    + left. now rewrite lookup_delete_ne.
  - destruct (decide (k = q)) as [<-|Hne].
    + right. rewrite lookup_delete_eq. auto.
    + rewrite lookup_delete_ne by exact Hne.
      destruct (decide (k1 = q)) as [<-|Hne1].
      * right. rewrite lookup_delete_eq. auto.
      * left. now rewrite lookup_delete_ne.
  - now left.
Qed.

Lemma tree_sweep_loop_shrinks now ks st :
  tree_shrinks cfg (fun k => k ∈ ks) now st (final (tree_sweep_loop cfg now ks st)).
Proof.
  revert st. induction ks as [|k ks IH]; intros st; [apply tree_shrinks_refl|].
  simpl.
  pose proof (tree_shrinks_mono (eq k) (fun x => x ∈ k :: ks) now st _
                ltac:(intros x <-; apply list_elem_of_here)
                (tree_sweep_file_shrinks now k st)) as Hstep.
  destruct (tree_sweep_file cfg now k st) as [st1|st1]; simpl in *; [|exact Hstep].
  eapply tree_shrinks_trans; [exact Hstep|].
  eapply tree_shrinks_mono; [|apply IH].
  intros x Hx. now apply list_elem_of_further.
Qed.

Lemma tree_cleanupExpired_loop now st :
  tree_cleanupExpired cfg now st = tree_sweep_loop cfg now (glob_json st) st.
Proof. unfold tree_cleanupExpired. now destruct (glob_json st). Qed.

Lemma tree_cleanupExpired_shrinks now st :
  tree_shrinks cfg (fun k => k ∈ glob_json st) now st
    (final (tree_cleanupExpired cfg now st)).
Proof. rewrite tree_cleanupExpired_loop. apply tree_sweep_loop_shrinks. Qed.

End Tree.

Section TreeSweep.
Context `{Runtime}.
Variable cfg : config.

(** Where no record names a metadata file, the sweep over the tree is the
    sweep over the two maps. *)
Lemma tree_free_shrinks P now st st' :
  shrinks P now st st' -> tree_free cfg st -> tree_free cfg st'.
Proof.
  intros [Hm _] Hfree k m k' Hk. destruct (Hm k) as [E|[E _]]; rewrite E in Hk;
    [eauto | discriminate].
Qed.

Lemma tree_unlink_if_present_free path st :
  (forall k', path <> Some (metaPath cfg k')) ->
  tree_unlink_if_present cfg path st = unlink_if_present path st.
Proof.
  intros Hfree. unfold tree_unlink_if_present, unlink_if_present.
  destruct path as [p|]; [|reflexivity].
  unfold path_exists, unlink_path.
  rewrite meta_stem_at_free; [reflexivity|].
  intros k _ Heq. apply (Hfree k). now rewrite Heq.
Qed.

Lemma tree_sweep_file_free now k st :
  tree_free cfg st -> tree_sweep_file cfg now k st = sweep_file now k st.
Proof.
  intros Hfree. unfold tree_sweep_file, sweep_file.
  destruct (metas st !! k) as [[m|]|] eqn:Hk; try reflexivity.
  rewrite tree_unlink_if_present_free; [reflexivity|].
  intros k'. now apply (Hfree k m k').
Qed.

Lemma tree_sweep_loop_free now ks st :
  tree_free cfg st -> tree_sweep_loop cfg now ks st = sweep_loop now ks st.
Proof.
  revert st. induction ks as [|k ks IH]; intros st Hfree; [reflexivity|].
  simpl. rewrite tree_sweep_file_free by exact Hfree.
  pose proof (sweep_file_shrinks (fun _ => True) now k st I) as Hsh.
  destruct (sweep_file now k st) as [st1|st1]; [|reflexivity].
  apply IH. eapply tree_free_shrinks; eauto.
Qed.

Lemma tree_sweep_agrees now st :
  tree_free cfg st -> tree_cleanupExpired cfg now st = cleanupExpired now st.
Proof.
  intros Hfree. rewrite tree_cleanupExpired_loop, cleanupExpired_loop.
  now apply tree_sweep_loop_free.
Qed.

End TreeSweep.

(** ** Directories written by uploads name no metadata file *)

Lemma rtrim_slash_split s :
  exists t, s = Php.rtrim_slash s +:+ t /\ Php.str_forall (Ascii.eqb "/") t = true.
Proof.
  induction s as [|c r (t & Hr & Ht)]; [now exists ""|].
  cbn [Php.rtrim_slash].
  destruct (Ascii.eqb_spec c "/") as [->|Hc]; cbn [andb].
  - destruct (String.eqb_spec (Php.rtrim_slash r) "") as [He|He].
    + exists (String "/" r). split; [reflexivity|].
      rewrite He in Hr. simpl in Hr. now rewrite Hr at 1.
    + exists t. split; [|exact Ht].
      change (String "/" r = String "/" (Php.rtrim_slash r +:+ t)). now f_equal.
  - exists t. split; [|exact Ht].
    change (String c r = String c (Php.rtrim_slash r +:+ t)). now f_equal.
Qed.

Lemma rtrim_slash_app_meta s : Php.rtrim_slash (s +:+ "/meta") = s +:+ "/meta".
Proof.
  induction s as [|c r IH]; [reflexivity|].
  change (String c r +:+ "/meta") with (String c (r +:+ "/meta")).
  cbn [Php.rtrim_slash]. rewrite IH.
  assert (Hne : String.eqb (r +:+ "/meta") "" = false)
    by (destruct r; reflexivity).
  now rewrite Hne, andb_false_r.
Qed.

Lemma str_contains_mid c a b : str_contains c (a +:+ String c b) = true.
Proof.
  induction a as [|d a IH]; simpl.
  - now rewrite Ascii.eqb_refl.
  - rewrite IH. apply orb_true_r.
Qed.

Lemma string_cons_inj c d (a b : string) : String c a = String d b -> a = b.
Proof. intros Heq. now injection Heq. Qed.

Lemma targetPath_not_metaPath cfg e u k :
  targetPath cfg e u <> metaPath cfg k.
Proof.
  unfold targetPath, metaPath, metaDir. rewrite rtrim_slash_app_meta.
  destruct (rtrim_slash_split (uploadDir cfg)) as (t & Hsplit & Ht).
  set (R := Php.rtrim_slash (uploadDir cfg)) in *.
  rewrite Hsplit. rewrite !str_app_assoc. intros Heq.
  apply String.app_inj in Heq.
  change ("/meta" +:+ "/" +:+ k +:+ ".json")
    with (String "/" ("meta" +:+ "/" +:+ k +:+ ".json")) in Heq.
  pose proof (safe_no_slash _ (storedName_safe e u)) as Hno.
  destruct t as [|c t].
  - change (String "/" (storedName e u)
            = String "/" ("meta" +:+ String "/" (k +:+ ".json"))) in Heq.
    apply string_cons_inj in Heq. rewrite Heq, str_contains_mid in Hno. discriminate.
  - change (String "/" (storedName e u)
            = String c (t +:+ String "/" ("meta" +:+ "/" +:+ k +:+ ".json"))) in Heq.
    apply string_cons_inj in Heq. rewrite Heq, str_contains_mid in Hno. discriminate.
Qed.

Section UploadTree.
Context `{Runtime}.
Variable cfg : config.

Lemma wf_tree_free st : wf_store cfg st -> tree_free cfg st.
Proof.
  intros Hwf k m k' Hk.
  destruct (issued_record cfg k m (Hwf _ _ Hk)) as (e & u & _ & ->).
  simpl. intros Heq. injection Heq as Heq.
  exact (targetPath_not_metaPath cfg e u k' Heq).
Qed.

(** In a directory written by uploads only, the sweep over the tree and
    the sweep over the two maps are the same run. *)
Lemma wf_tree_sweep_agrees now st :
  wf_store cfg st -> tree_cleanupExpired cfg now st = cleanupExpired now st.
Proof. intros Hwf. now apply tree_sweep_agrees, wf_tree_free. Qed.

End UploadTree.

Section MalformedRecords.
Context `{Runtime}.
Variable cfg : config.

(** C10 as it holds: the sweep leaves a record that does not decode, or
    whose [expiresAt] is missing or empty, in place and unchanged, also
    when it ends in a fatal error, provided no record that the sweep
    removes has the record's own file as its [path]; in a directory
    written by uploads no record has, so there the sweep never removes
    such a record.  The payload such a record names is left alone
    provided no record that the sweep removes names the same path.  A
    GET for the id of a record that does not decode removes it and
    answers 404. *)
Theorem sweep_keeps_malformed_in_tree
    (now : Z) (st : store) (k : string) (c : option meta) :
  metas st !! k = Some c -> malformed c = true ->
  ((forall k' m', swept now st k' = true -> metas st !! k' = Some (Some m') ->
                  m_path m' <> Some (metaPath cfg k)) ->
   metas (final (tree_cleanupExpired cfg now st)) !! k = Some c) /\
  (wf_store cfg st ->
   metas (final (tree_cleanupExpired cfg now st)) !! k = Some c) /\
  (forall p,
     names p c ->
     (forall k' m', swept now st k' = true ->
                    metas st !! k' = Some (Some m') -> m_path m' <> Some p) ->
     objs (final (tree_cleanupExpired cfg now st)) !! p = objs st !! p) /\
  (forall e info,
     c = None -> Php.truthy k = true -> Php.sanitize_id k = k ->
     handle_get e k info st = (not_found info, unlink_meta k st)).
Proof.
  intros Hk Hmal.
  destruct (tree_cleanupExpired_shrinks cfg now st) as [Hm Ho].
  assert (Hnot : forall p,
            (forall k' m', swept now st k' = true ->
                           metas st !! k' = Some (Some m') -> m_path m' <> Some p) ->
            ~ taken (fun x => x ∈ glob_json st) now st p).
  { intros p Hp (k' & m' & Hin & Hk' & Hx & Hpath).
    apply (Hp k' m'); [now apply swept_glob | exact Hk' | exact Hpath]. }
  assert (Hstay : (forall k' m', swept now st k' = true ->
                     metas st !! k' = Some (Some m') ->
                     m_path m' <> Some (metaPath cfg k)) ->
                  metas (final (tree_cleanupExpired cfg now st)) !! k = Some c).
  { intros Hown. destruct (Hm k) as [E|(_ & [[_ Hx]|Htk])]; [now rewrite E| |].
    - rewrite Hk, malformed_not_expirable in Hx by exact Hmal. discriminate.
    - now destruct (Hnot _ Hown). }
  split; [exact Hstay|]. split; [|split].
  - intros Hwf. apply Hstay. intros k' m' _ Hk'.
    exact (wf_tree_free cfg st Hwf k' m' k Hk').
  - intros p _ Hother. destruct (Ho p) as [E|(_ & Htk)]; [exact E|].
    now destruct (Hnot _ Hother).
  - intros e info -> Ht Hs.
    rewrite (handle_get_unusable e k info st None); rewrite ?Hs; auto.
Qed.

End MalformedRecords.

Lemma sweep_keeps_malformed_in_tree_witness :
  metas aliased_store !! sample_id = Some (Some undated_meta) /\
  malformed (Some undated_meta) = true /\
  swept 5 aliased_store "ffffffffffff" = true /\
  metas (final (tree_cleanupExpired sample_config 5 aliased_store)) !! "ffffffffffff"
  = None /\
  metas (final (tree_cleanupExpired sample_config 5 aliased_store)) !! sample_id
  = Some (Some undated_meta).
Proof.
  split; [reflexivity|]. split; [reflexivity|]. split; [reflexivity|].
  split; [reflexivity|].
  destruct (@sweep_keeps_malformed_in_tree plain_runtime sample_config 5
              aliased_store sample_id (Some undated_meta) eq_refl eq_refl)
    as (Hstay & _).
  apply Hstay. intros k' m' _ Hk'. simpl in Hk'.
  apply lookup_insert_Some in Hk' as [[_ Hm]|[_ Hk']];
    [|apply lookup_singleton_Some in Hk' as [_ Hm]];
    injection Hm as <-; vm_compute; discriminate.
Defined.

(** The claim C10 has the sweep never delete a record that does not
    decode, in every state of the store.  Here the file [g.json] does not
    decode, and an expired record has that file as its [path]: the sweep
    unlinks it as the payload of the expired record.  In the directory
    where an expired record names the payload of the undated one, that
    payload goes with the expired record. *)
Lemma sweep_takes_named_record :
  metas pointing_store !! "g" = Some None /\
  malformed None = true /\
  m_path pointing_meta = Some (metaPath sample_config "g") /\
  tree_cleanupExpired sample_config 5 pointing_store
  = Done (Store ∅ ∅ [UnlinkMeta "g"; UnlinkMeta "ffffffffffff"]) /\
  malformed (Some undated_meta) = true /\
  m_path undated_meta = Some sample_path /\
  objs aliased_store !! sample_path = Some sample_bytes /\
  objs (final (tree_cleanupExpired sample_config 5 aliased_store)) !! sample_path
  = None.
Proof. repeat split; reflexivity. Qed.

(** ** Responses on the wire *)

Section Wire.
Context `{Runtime}.
Variable cfg : config.

Lemma echoed_cases b : echoed b = b \/ (echoed b = NoBody /\ is_json b = true).
Proof.
  unfold echoed. destruct (forallb json_encodable (payload_strings b)) eqn:Hb;
    [now left|].
  right. split; [reflexivity|]. destruct b; try reflexivity; discriminate.
Qed.

Lemma well_shaped_json s h b :
  well_shaped (Response s h b) = true -> is_json b = true ->
  bool_decide (s ∈ [200; 400; 404; 405; 410; 413; 500]) = true /\
  h = cors_headers ++ [json_header].
Proof.
  unfold well_shaped. cbn [content status headers].
  destruct b; try discriminate; intros Hw _;
    apply andb_true_iff in Hw as [Hs Hh]; apply bool_decide_eq_true in Hh;
    (split; [|exact Hh]).
  - apply bool_decide_eq_true in Hs. apply bool_decide_eq_true_2.
    now apply list_elem_of_further.
  - apply Z.eqb_eq in Hs as ->. reflexivity.
  - apply Z.eqb_eq in Hs as ->. reflexivity.
Qed.

Lemma on_wire_shaped s h b :
  well_shaped (Response s h b) = true ->
  wire_shaped (Response s h (echoed b)) = true /\
  (is_json b = true -> h = cors_headers ++ [json_header]).
Proof.
  intros Hw. split.
  - destruct (echoed_cases b) as [->|[-> Hj]].
    + unfold wire_shaped. cbn [content]. destruct b; try exact Hw.
      unfold well_shaped in Hw. cbn [content status headers] in Hw.
      cbn [status headers]. now rewrite Hw.
    + destruct (well_shaped_json s h b Hw Hj) as [Hs ->].
      unfold wire_shaped. cbn [content status headers].
      apply orb_true_iff. right. apply andb_true_iff.
      split; [exact Hs | now apply bool_decide_eq_true_2].
  - intros Hj. now destruct (well_shaped_json s h b Hw Hj).
Qed.

(** X6: every response the script sends has one of a few shapes.  It
    starts with the four CORS header lines.  A JSON payload comes with
    the JSON content type and nothing else, a failure payload with one
    of the error codes, a success payload or file content with 200; a
    plain-text body is an error of a download request; an empty body
    comes with 204, or in place of a JSON payload that [json_encode]
    refused, under the status and header lines of that answer.  Every
    POST run, and every GET run with the info flag, is answered under
    the JSON content type, with a JSON payload or that empty body. *)
Theorem responses_on_wire_are_shaped (e : env) (r : request) (st : store) :
  match on_wire (serve cfg e r st).1 with
  | Sent resp =>
      wire_shaped resp = true /\
      take 4 (headers resp) = cors_headers /\
      (method r = POST \/ (method r = GET /\ get_info r = true) ->
       headers resp = cors_headers ++ [json_header] /\
       (is_json (content resp) = true \/ content resp = NoBody))
  | Crashed => True
  end.
Proof.
  pose proof (handed_payload_shaped cfg e r st) as Hs.
  destruct (serve cfg e r st).1 as [[s h b]|]; [|exact I].
  cbn [on_wire]. cbn [headers content] in *.
  destruct Hs as (Hw & Hc & Hpost & Hget).
  destruct (on_wire_shaped s h b Hw) as [Hwire Hhead].
  split; [exact Hwire|]. split; [exact Hc|].
  intros Hkind.
  assert (Hj : is_json b = true) by (destruct Hkind as [Hp|[Hg Hi]]; auto).
  split; [now apply Hhead|].
  destruct (echoed_cases b) as [->|[-> _]]; auto.
Qed.

End Wire.

(** A file whose name [json_encode] refuses is stored, its record is
    written empty, and the answer is 200 under the JSON content type
    with an empty body. *)
Example refused_name_answers_empty :
  @on_wire picky_runtime
    (@serve picky_runtime sample_config (env_at 0)
       (post_request latin1_upload) empty_store).1
  = Sent (Response 200 (cors_headers ++ [json_header]) NoBody) /\
  metas (@serve picky_runtime sample_config (env_at 0)
           (post_request latin1_upload) empty_store).2 !! sample_id
  = Some None.
Proof. split; reflexivity. Qed.
